(** * ClopiNet sequence embedding: construction and forward pass

    Shallow embedding of [pyannote/audio/embedding/models/clopinet.py].

    The Python control flow of [ClopiNet.__init__], [ClopiNet.output_dim]
    and [ClopiNet.forward] is written as Rocq functions in a state and
    exception monad.  The tensor library the module runs on is kept
    symbolic: every call into it builds a node of the computation graph
    ([expr]) and is appended to a tape of calls, so that statements about
    what is fed where, what is computed and what is returned can be read
    off the result. *)

From Stdlib Require Import ZArith QArith String List Bool DecimalString Lia.
From Stdlib Require Import DecimalZ DecimalPos.
Import ListNotations.
Open Scope string_scope.
Open Scope Z_scope.
Set Warnings "-register-all".

(** ** Python values and exceptions *)

(** Scalar values a keyword argument such as [normalize] may hold. *)
Inductive pyval :=
| PyNone
| PyBool (b : bool)
| PyInt (z : Z)
| PyStr (s : string).

(** Python truth value. *)
Definition truthy (v : pyval) : bool :=
  match v with
  | PyNone => false
  | PyBool b => b
  | PyInt z => negb (z =? 0)
  | PyStr s => negb (s =? EmptyString)%string
  end.

(** [v == s] for a string literal [s]. *)
Definition py_eq_str (v : pyval) (s : string) : bool :=
  match v with
  | PyStr s' => (s' =? s)%string
  | _ => false
  end.

(** [v in {s1, ..., sn}] for a set of string literals. *)
Definition py_in_strs (v : pyval) (set : list string) : bool :=
  existsb (py_eq_str v) set.

(** [s in {s1, ..., sn}] for a string [s]. *)
Definition str_in (s : string) (set : list string) : bool :=
  existsb (String.eqb s) set.

(** The double-quote character, for messages that contain it. *)
Definition dq : string := String (Ascii.ascii_of_nat 34) EmptyString.

(** ['{0}'.format(z)] for an integer. *)
Definition str (z : Z) : string := NilZero.string_of_int (Z.to_int z).

Inductive exn :=
| ValueError (msg : string)
| NotImplementedError (msg : string)
| AttributeError (msg : string)
| UnboundLocalError (msg : string)
| TypeError (msg : string)
| RuntimeError (msg : string).

(** ** The tensor library, symbolically *)

Inductive device :=
| cpu
| cuda (index : nat).

Definition device_eqb (a b : device) : bool :=
  match a, b with
  | cpu, cpu => true
  | cuda i, cuda j => Nat.eqb i j
  | _, _ => false
  end.

(** A dense batch-major tensor handed to [forward]:
    [sequence.size()] is [(batch_size, n_samples, n_features)]. *)
Record Tensor3 := {
  tensor_name : string;
  size0 : Z;
  size1 : Z;
  size2 : Z;
  tensor_device : device
}.

(** A [PackedSequence] as the packing utilities build it: [data] is a
    matrix and [batch_sizes] holds one entry per time step.  Packing
    rejects empty sequences, so there is a first step. *)
Record PackedSequence := {
  data_name : string;
  data_size0 : Z;
  data_size1 : Z;
  batch_sizes_0 : Z;
  batch_sizes_rest : list Z;
  data_device : device
}.

Inductive sequence_arg :=
| Dense (t : Tensor3)
| Packed (p : PackedSequence).

(** Sub-layers without mutable state of their own in this model. *)
Inductive layer :=
| LSTM (input_size hidden_size : Z) (bidirectional batch_first : bool)
| GRU (input_size hidden_size : Z) (bidirectional batch_first : bool)
| Linear (in_features out_features : Z) (bias : bool).

(** Nodes of the computation graph; one constructor per library call
    that [clopinet.py] makes. *)
Inductive expr :=
| Arg (a : sequence_arg)
| Transpose (e : expr) (dim0 dim1 : Z)
| InstanceNorm (e : expr)
| Ones (n : Z)
| Param (e : expr)
| To (e : expr) (d : device)
| Zeros (shape : list Z) (d : device)
| Rnn (l : layer) (input : expr) (hidden : list expr)
| PadPacked (e : expr)
| Cat (es : list expr) (dim : Z)
| Mul (a b : expr)
| Div (a b : expr)
| AddScalar (k : Z) (e : expr)
| Apply (l : layer) (e : expr)
| Tanh (e : expr)
| Softmax (e : expr) (dim : Z)
| Sigmoid (e : expr)
| SumDim (e : expr) (dim : Z)
| MaxDim (e : expr) (dim : Z)
| Norm (e : expr) (p dim : Z) (keepdim : bool)
| BatchNormOut (stats : expr) (training : bool) (e : expr)
| StatsInit (num_features : Z)
| StatsUpdate (stats : expr) (e : expr).

(** [isinstance(e, PackedSequence)]: a recurrent layer maps a packed
    sequence to a packed sequence, everything else yields tensors. *)
Fixpoint is_packed (e : expr) : bool :=
  match e with
  | Arg (Packed _) => true
  | Rnn _ input _ => is_packed input
  | _ => false
  end.

(** [e.device] *)
Fixpoint device_of (e : expr) : device :=
  match e with
  | Arg (Dense t) => tensor_device t
  | Arg (Packed p) => data_device p
  | Ones _ => cpu
  | StatsInit _ => cpu
  | To _ d => d
  | Zeros _ d => d
  | Transpose e _ _ | InstanceNorm e | Param e | PadPacked e
  | Tanh e | Softmax e _ | Sigmoid e | SumDim e _ | MaxDim e _
  | Norm e _ _ _ | AddScalar _ e | Apply _ e => device_of e
  | Rnn _ input _ => device_of input
  | Mul a _ | Div a _ => device_of a
  | BatchNormOut _ _ e => device_of e
  | StatsUpdate s _ => device_of s
  | Cat es _ => match es with e :: _ => device_of e | [] => cpu end
  end.

(** [e.to(d)]: the object itself when it already lives on [d], otherwise
    a copy on [d], which is a plain tensor even when [e] is a parameter. *)
Definition to (e : expr) (d : device) : expr :=
  if device_eqb (device_of e) d then e else To e d.

(** [nn.BatchNorm1d]: the only sub-layer whose state a forward pass
    changes (its running statistics, in training mode). *)
Record BatchNorm1d := {
  num_features : Z;
  eps : Q;
  momentum : Q;
  affine : bool;
  training : bool;
  running_stats : expr
}.

Definition nn_BatchNorm1d (n : Z) (eps momentum : Q) (affine : bool) : BatchNorm1d :=
  {| num_features := n; eps := eps; momentum := momentum; affine := affine;
     training := true; running_stats := StatsInit n |}.

Inductive submodule :=
| Layer (l : layer)
| BatchNorm (bn : BatchNorm1d).

(** ** The module object *)

(** Attributes of a [ClopiNet] instance.  [_parameters] and [_modules]
    are the registries of [nn.Module]: assigning a parameter or a
    sub-layer to an attribute, and [add_module], store it there.  An
    attribute that has not been assigned yet reads as its empty value. *)
Record ClopiNet := {
  n_features : Z;
  rnn : string;
  recurrent : list Z;
  bidirectional : bool;
  pooling : string;
  instance_normalize : bool;
  batch_normalize : bool;
  normalize : pyval;
  weighted : bool;
  linear : list Z;
  attention : list Z;
  num_directions_ : Z;
  recurrent_layers_ : list layer;
  linear_layers_ : list layer;
  attention_layers_ : list layer;
  _parameters : list (string * expr);
  _modules : list (string * submodule)
}.

(** The object after [super(ClopiNet, self).__init__()]. *)
Definition blank : ClopiNet :=
  {| n_features := 0; rnn := EmptyString; recurrent := [];
     bidirectional := false; pooling := EmptyString; instance_normalize := false; batch_normalize := false;
     normalize := PyNone; weighted := false; linear := []; attention := [];
     num_directions_ := 0; recurrent_layers_ := []; linear_layers_ := [];
     attention_layers_ := []; _parameters := []; _modules := [] |}.

(** Registry lookup and assignment (insertion order is kept, a name
    that is already present keeps its place). *)
Fixpoint lookup {A} (name : string) (d : list (string * A)) : option A :=
  match d with
  | [] => None
  | (k, v) :: rest => if (k =? name)%string then Some v else lookup name rest
  end.

Fixpoint assign {A} (name : string) (v : A) (d : list (string * A)) : list (string * A) :=
  match d with
  | [] => [(name, v)]
  | (k, w) :: rest =>
      if (k =? name)%string then (k, v) :: rest else (k, w) :: assign name v rest
  end.

(** ** State and exception monad *)

(** A computation on a state [S] that returns or raises; the state at
    the point of the [raise] is kept. *)
Definition M (S A : Type) : Type := S -> S * (exn + A).

Definition ret {S A} (a : A) : M S A := fun s => (s, inr a).

Definition raise {S A} (e : exn) : M S A := fun s => (s, inl e).

Definition bind {S A B} (c : M S A) (k : A -> M S B) : M S B :=
  fun s => match c s with
           | (s', inr a) => k a s'
           | (s', inl e) => (s', inl e)
           end.

Definition get {S} : M S S := fun s => (s, inr s).

Definition modify {S} (f : S -> S) : M S unit := fun s => (f s, inr tt).

Declare Scope py_scope.
Delimit Scope py_scope with py.
Notation "x <- c ;; k" := (bind c (fun x => k))
  (at level 61, c at next level, right associativity) : py_scope.
Notation "c ;; k" := (bind c (fun _ => k))
  (at level 61, right associativity) : py_scope.
Open Scope py_scope.

(** ** Construction *)

Record Config := {
  cfg_n_features : Z;
  cfg_rnn : string;
  cfg_recurrent : list Z;
  cfg_bidirectional : bool;
  cfg_pooling : string;
  cfg_instance_normalize : bool;
  cfg_batch_normalize : bool;
  cfg_normalize : pyval;
  cfg_weighted : bool;
  cfg_linear : option (list Z);
  cfg_attention : option (list Z)
}.

(** [ClopiNet(n_features)] with every keyword argument at its default. *)
Definition defaults (n : Z) : Config :=
  {| cfg_n_features := n; cfg_rnn := "LSTM"; cfg_recurrent := [64; 64; 64];
     cfg_bidirectional := false; cfg_pooling := "sum";
     cfg_instance_normalize := false; cfg_batch_normalize := true;
     cfg_normalize := PyBool false; cfg_weighted := false;
     cfg_linear := None; cfg_attention := None |}.

(** Lines 86-98: the configuration attributes. *)
Definition set_config (c : Config) (self : ClopiNet) : ClopiNet :=
  {| n_features := cfg_n_features c;
     rnn := cfg_rnn c;
     recurrent := cfg_recurrent c;
     bidirectional := cfg_bidirectional c;
     pooling := cfg_pooling c;
     instance_normalize := cfg_instance_normalize c;
     batch_normalize := cfg_batch_normalize c;
     normalize := cfg_normalize c;
     weighted := cfg_weighted c;
     linear := match cfg_linear c with None => [] | Some l => l end;
     attention := match cfg_attention c with None => [] | Some l => l end;
     num_directions_ := if cfg_bidirectional c then 2 else 1;
     recurrent_layers_ := recurrent_layers_ self;
     linear_layers_ := linear_layers_ self;
     attention_layers_ := attention_layers_ self;
     _parameters := _parameters self;
     _modules := _modules self |}.

Definition set_recurrent_layers_ (v : list layer) (self : ClopiNet) : ClopiNet :=
  {| n_features := n_features self; rnn := rnn self; recurrent := recurrent self;
     bidirectional := bidirectional self; pooling := pooling self;
     instance_normalize := instance_normalize self;
     batch_normalize := batch_normalize self; normalize := normalize self;
     weighted := weighted self; linear := linear self; attention := attention self;
     num_directions_ := num_directions_ self;
     recurrent_layers_ := v;
     linear_layers_ := linear_layers_ self;
     attention_layers_ := attention_layers_ self;
     _parameters := _parameters self;
     _modules := _modules self |}.

Definition set_linear_layers_ (v : list layer) (self : ClopiNet) : ClopiNet :=
  {| n_features := n_features self; rnn := rnn self; recurrent := recurrent self;
     bidirectional := bidirectional self; pooling := pooling self;
     instance_normalize := instance_normalize self;
     batch_normalize := batch_normalize self; normalize := normalize self;
     weighted := weighted self; linear := linear self; attention := attention self;
     num_directions_ := num_directions_ self;
     recurrent_layers_ := recurrent_layers_ self;
     linear_layers_ := v;
     attention_layers_ := attention_layers_ self;
     _parameters := _parameters self;
     _modules := _modules self |}.

Definition set_attention_layers_ (v : list layer) (self : ClopiNet) : ClopiNet :=
  {| n_features := n_features self; rnn := rnn self; recurrent := recurrent self;
     bidirectional := bidirectional self; pooling := pooling self;
     instance_normalize := instance_normalize self;
     batch_normalize := batch_normalize self; normalize := normalize self;
     weighted := weighted self; linear := linear self; attention := attention self;
     num_directions_ := num_directions_ self;
     recurrent_layers_ := recurrent_layers_ self;
     linear_layers_ := linear_layers_ self;
     attention_layers_ := v;
     _parameters := _parameters self;
     _modules := _modules self |}.

Definition set_parameters (v : list (string * expr)) (self : ClopiNet) : ClopiNet :=
  {| n_features := n_features self; rnn := rnn self; recurrent := recurrent self;
     bidirectional := bidirectional self; pooling := pooling self;
     instance_normalize := instance_normalize self;
     batch_normalize := batch_normalize self; normalize := normalize self;
     weighted := weighted self; linear := linear self; attention := attention self;
     num_directions_ := num_directions_ self;
     recurrent_layers_ := recurrent_layers_ self;
     linear_layers_ := linear_layers_ self;
     attention_layers_ := attention_layers_ self;
     _parameters := v;
     _modules := _modules self |}.

Definition set_modules (v : list (string * submodule)) (self : ClopiNet) : ClopiNet :=
  {| n_features := n_features self; rnn := rnn self; recurrent := recurrent self;
     bidirectional := bidirectional self; pooling := pooling self;
     instance_normalize := instance_normalize self;
     batch_normalize := batch_normalize self; normalize := normalize self;
     weighted := weighted self; linear := linear self; attention := attention self;
     num_directions_ := num_directions_ self;
     recurrent_layers_ := recurrent_layers_ self;
     linear_layers_ := linear_layers_ self;
     attention_layers_ := attention_layers_ self;
     _parameters := _parameters self;
     _modules := v |}.

(** [self.add_module(name, module)] and [self.name = module] *)
Definition add_module (name : string) (m : submodule) : M ClopiNet unit :=
  modify (fun self => set_modules (assign name m (_modules self)) self).

(** [self.name = parameter] *)
Definition register_parameter (name : string) (p : expr) : M ClopiNet unit :=
  modify (fun self => set_parameters (assign name p (_parameters self)) self).

(** [2 if self.bidirectional else 1] *)
Definition directions (b : bool) : Z := if b then 2 else 1.

(** [sum(l)] *)
Definition sum (l : list Z) : Z := fold_left Z.add l 0.

(** ['"pooling" must be one of {"sum", "max"}'] *)
Definition msg_pooling : string :=
  (dq ++ "pooling" ++ dq ++ " must be one of {" ++ dq ++ "sum" ++ dq ++ ", "
   ++ dq ++ "max" ++ dq ++ "}")%string.

(** ['"rnn" must be one of {"LSTM", "GRU"}.'] *)
Definition msg_rnn : string :=
  (dq ++ "rnn" ++ dq ++ " must be one of {" ++ dq ++ "LSTM" ++ dq ++ ", "
   ++ dq ++ "GRU" ++ dq ++ "}.")%string.

(** Lines 106-120: one recurrent layer per hidden dimension. *)
Fixpoint init_recurrent (i : Z) (hidden_dims : list Z) (input_dim : Z)
  : M ClopiNet unit :=
  match hidden_dims with
  | [] => ret tt
  | hidden_dim :: rest =>
      self <- get ;;
      recurrent_layer <-
        (if (rnn self =? "LSTM")%string then
           ret (LSTM input_dim hidden_dim (bidirectional self) true)
         else if (rnn self =? "GRU")%string then
           ret (GRU input_dim hidden_dim (bidirectional self) true)
         else
           raise (ValueError msg_rnn)) ;;
      add_module ("recurrent_" ++ str i)%string (Layer recurrent_layer) ;;
      modify (fun self =>
        set_recurrent_layers_ (recurrent_layers_ self ++ [recurrent_layer]) self) ;;
      init_recurrent (i + 1) rest (hidden_dim * directions (bidirectional self))
  end.

(** Lines 132-136: one linear layer per hidden dimension; the loop
    leaves the last hidden dimension in [input_dim]. *)
Fixpoint init_linear (i : Z) (hidden_dims : list Z) (input_dim : Z)
  : M ClopiNet Z :=
  match hidden_dims with
  | [] => ret input_dim
  | hidden_dim :: rest =>
      let linear_layer := Linear input_dim hidden_dim true in
      add_module ("linear_" ++ str i)%string (Layer linear_layer) ;;
      modify (fun self =>
        set_linear_layers_ (linear_layers_ self ++ [linear_layer]) self) ;;
      init_linear (i + 1) rest hidden_dim
  end.

(** Lines 153-157: the attention stack, fed from the feature dimension. *)
Fixpoint init_attention (i : Z) (hidden_dims : list Z) (input_dim : Z)
  : M ClopiNet Z :=
  match hidden_dims with
  | [] => ret input_dim
  | hidden_dim :: rest =>
      let attention_layer := Linear input_dim hidden_dim true in
      add_module ("attention_" ++ str i)%string (Layer attention_layer) ;;
      modify (fun self =>
        set_attention_layers_ (attention_layers_ self ++ [attention_layer]) self) ;;
      init_attention (i + 1) rest hidden_dim
  end.

(** [if not l] for a list *)
Definition is_empty {A} (l : list A) : bool :=
  match l with [] => true | _ => false end.

(** Lines 103-120: create the list of recurrent layers. *)
Definition create_recurrent_layers : M ClopiNet unit :=
  modify (set_recurrent_layers_ []) ;;
  self <- get ;;
  init_recurrent 0 (recurrent self) (n_features self).

(** Lines 130-136: create the list of linear layers. *)
Definition create_linear_layers (input_dim : Z) : M ClopiNet Z :=
  modify (set_linear_layers_ []) ;;
  self <- get ;;
  init_linear 0 (linear self) input_dim.

(** Lines 138-145: the two batch-normalization layers. *)
Definition create_batch_norms (input_dim : Z) : M ClopiNet unit :=
  self <- get ;;
  (if batch_normalize self then
     add_module "batch_norm_"
       (BatchNorm (nn_BatchNorm1d input_dim (1 # 100000) (1 # 10) false))
   else ret tt) ;;
  (if py_in_strs (normalize self) ["ball"; "ring"] then
     add_module "norm_batch_norm_"
       (BatchNorm (nn_BatchNorm1d 1 (1 # 100000) (1 # 10) false))
   else ret tt).

(** Lines 147-162: create the attention layers. *)
Definition create_attention_layers : M ClopiNet unit :=
  modify (set_attention_layers_ []) ;;
  self <- get ;;
  if is_empty (attention self) then ret tt
  else
    input_dim <- init_attention 0 (attention self) (n_features self) ;;
    if input_dim >? 1 then
      let attention_layer := Linear input_dim 1 true in
      add_module ("attention_" ++ str (Z.of_nat (length (attention self))))%string
        (Layer attention_layer) ;;
      modify (fun self =>
        set_attention_layers_ (attention_layers_ self ++ [attention_layer]) self)
    else ret tt.

(** [ClopiNet.__init__], lines 79-162, run on the object [self]. *)
Definition __init__ (c : Config) : M ClopiNet unit :=
  modify (set_config c) ;;
  self <- get ;;
  if negb (str_in (pooling self) ["sum"; "max"]) then
    raise (ValueError msg_pooling)
  else
    create_recurrent_layers ;;
    let input_dim := sum (recurrent self) * directions (bidirectional self) in
    (if weighted self then
       register_parameter "alphas_" (Param (Ones input_dim))
     else ret tt) ;;
    input_dim <- create_linear_layers input_dim ;;
    create_batch_norms input_dim ;;
    create_attention_layers.

(** [ClopiNet(...)]: the object [__init__] leaves behind, and whether it
    returned or raised. *)
Definition construct (c : Config) : ClopiNet * (exn + unit) :=
  __init__ c blank.

(** [ClopiNet.output_dim], lines 164-168. *)
Definition output_dim (self : ClopiNet) : Z :=
  if negb (is_empty (linear self)) then last (linear self) 0
  else sum (recurrent self) * directions (bidirectional self).

(** ** Forward pass *)

(** What a call of [forward] acts on: the module object, and the tape of
    the library calls made so far (each entry is the node a call
    returned). *)
Record World := {
  self_ : ClopiNet;
  tape : list expr
}.

(** A call into the tensor library: record the node, return it. *)
Definition torch (e : expr) : M World expr :=
  fun w => ({| self_ := self_ w; tape := tape w ++ [e] |}, inr e).

Definition getself : M World ClopiNet :=
  fun w => (w, inr (self_ w)).

Definition setself (f : ClopiNet -> ClopiNet) : M World unit :=
  fun w => ({| self_ := f (self_ w); tape := tape w |}, inr tt).

(** ['Wrong feature dimension. Found {0}, should be {1}'.format(a, b)] *)
Definition msg_wrong_dimension (found expected : Z) : string :=
  ("Wrong feature dimension. Found " ++ str found ++ ", should be "
   ++ str expected)%string.

Definition msg_attention : string :=
  "attention is not yet implemented for variable length sequences.".

(** ['"max" pooling is not yet implemented for variable length sequences.'] *)
Definition msg_max : string :=
  (dq ++ "max" ++ dq
   ++ " pooling is not yet implemented for variable length sequences.")%string.

(** [e.transpose(dim0, dim1)]: a method of tensors; a [PackedSequence]
    is a named tuple and has no such attribute. *)
Definition transpose (e : expr) (dim0 dim1 : Z) : M World expr :=
  if is_packed e then
    raise (AttributeError "'PackedSequence' object has no attribute 'transpose'")
  else torch (Transpose e dim0 dim1).

(** [layer(e)] for an [nn.Linear]: it asks its argument for [dim()],
    which a [PackedSequence] does not have. *)
Definition call_linear (l : layer) (e : expr) : M World expr :=
  if is_packed e then
    raise (AttributeError "'PackedSequence' object has no attribute 'dim'")
  else torch (Apply l e).

(** [self.alphas_] *)
Definition getattr_alphas_ : M World expr :=
  self <- getself ;;
  match lookup "alphas_" (_parameters self) with
  | Some a => ret a
  | None => raise (AttributeError "'ClopiNet' object has no attribute 'alphas_'")
  end.

(** [torch.typename(e)] of a tensor of the default type *)
Definition typename (e : expr) : string :=
  match device_of e with
  | cpu => "torch.FloatTensor"
  | cuda _ => "torch.cuda.FloatTensor"
  end.

(** [isinstance(e, nn.Parameter)] *)
Definition is_parameter (e : expr) : bool :=
  match e with Param _ => true | _ => false end.

(** [self.alphas_ = v], with [alphas_] a registered parameter:
    [nn.Module.__setattr__] stores an [nn.Parameter] in [_parameters] and
    refuses any other tensor under a name that is registered there. *)
Definition setattr_alphas_ (v : expr) : M World unit :=
  if is_parameter v then
    setself (fun self =>
      set_parameters (assign "alphas_" v (_parameters self)) self)
  else
    raise (TypeError
      ("cannot assign '" ++ typename v
       ++ "' as parameter 'alphas_' (torch.nn.Parameter or None expected)")%string).

Definition set_running_stats (s : expr) (bn : BatchNorm1d) : BatchNorm1d :=
  {| num_features := num_features bn; eps := eps bn; momentum := momentum bn;
     affine := affine bn; training := training bn; running_stats := s |}.

(** [self.<name>(x)] for a batch-normalization sub-layer: in training
    mode the call also updates the layer's running statistics.  In
    training mode the layer also refuses a batch of a single sample;
    that depends on the size of [x], which is not tracked for computed
    tensors, so the statements below that a call returns take a batch of
    at least two samples where such a layer is in use. *)
Definition call_batch_norm (name : string) (x : expr) : M World expr :=
  self <- getself ;;
  match lookup name (_modules self) with
  | Some (BatchNorm bn) =>
      out <- torch (BatchNormOut (running_stats bn) (training bn) x) ;;
      (if training bn then
         setself (fun self =>
           set_modules
             (assign name
                (BatchNorm (set_running_stats (StatsUpdate (running_stats bn) x) bn))
                (_modules self)) self)
       else ret tt) ;;
      ret out
  | Some (Layer l) => call_linear l x
  | None =>
      raise (AttributeError ("'ClopiNet' object has no attribute '" ++ name ++ "'"))
  end.

(** The message of the [RuntimeError] a recurrent layer raises on an
    input that does not live with its weights. *)
Definition msg_device (d : device) : string :=
  ("Input and parameter tensors are not at the same device, found input tensor at "
   ++ match d with
      | cpu => "cpu"
      | cuda i => "cuda:" ++ str (Z.of_nat i)
      end
   ++ " and parameter tensor at cpu")%string.

(** [layer(output, hidden)] for a recurrent layer (line 216).  The
    sub-layers are where [__init__] built them, on the cpu (nothing in
    this file moves them), and a recurrent layer refuses an input that
    lives on another device. *)
Definition call_rnn (l : layer) (e : expr) (hidden : list expr) : M World expr :=
  if device_eqb (device_of e) cpu then torch (Rnn l e hidden)
  else raise (RuntimeError (msg_device (device_of e))).

(** Lines 199-218: the stacked recurrent layers.  [output] is the running
    sequence, [outputs] collects every layer's output. *)
Fixpoint recurrent_loop (rnn : string) (num_directions_ batch_size : Z)
    (device : device) (zipped : list (Z * layer))
    (output : expr) (outputs : list expr) : M World (expr * list expr) :=
  match zipped with
  | [] => ret (output, outputs)
  | (hidden_dim, layer) :: rest =>
      hidden <-
        (if (rnn =? "LSTM")%string then
           h <- torch (Zeros [num_directions_; batch_size; hidden_dim] device) ;;
           c <- torch (Zeros [num_directions_; batch_size; hidden_dim] device) ;;
           ret [h; c]
         else if (rnn =? "GRU")%string then
           hidden <- torch (Zeros [num_directions_; batch_size; hidden_dim] device) ;;
           ret [hidden]
         else
           raise (UnboundLocalError
                    "local variable 'hidden' referenced before assignment")) ;;
      output <- call_rnn layer output hidden ;;
      recurrent_loop rnn num_directions_ batch_size device rest output
        (outputs ++ [output])
  end.

(** [[pad_packed_sequence(o, batch_first=True) for o in outputs]] *)
Fixpoint pad_all (outputs : list expr) : M World (list expr) :=
  match outputs with
  | [] => ret []
  | o :: rest =>
      p <- torch (PadPacked o) ;;
      ps <- pad_all rest ;;
      ret (p :: ps)
  end.

(** Lines 221-222: the padded outputs and their lengths are separated by
    transposing the list of pairs with [zip] and unpacking it into two
    names, which fails when the list is empty. *)
Definition unpack_outputs (outputs : list expr) : M World (list expr) :=
  padded <- pad_all outputs ;;
  if is_empty padded then
    raise (ValueError "not enough values to unpack (expected 2, got 0)")
  else ret padded.

(** [torch.cat(outputs, dim)] *)
Definition cat (outputs : list expr) (dim : Z) : M World expr :=
  if is_empty outputs then
    raise (RuntimeError "expected a non-empty list of Tensors")
  else torch (Cat outputs dim).

(** Lines 232-238: linear layers, each followed by [tanh]. *)
Fixpoint linear_loop (zipped : list (Z * layer)) (output : expr) : M World expr :=
  match zipped with
  | [] => ret output
  | (hidden_dim, layer) :: rest =>
      output <- call_linear layer output ;;
      output <- torch (Tanh output) ;;
      linear_loop rest output
  end.

(** Lines 244-247: attention layers, each followed by [tanh]. *)
Fixpoint attention_loop (zipped : list (layer * Z)) (attn : expr) : M World expr :=
  match zipped with
  | [] => ret attn
  | (layer, hidden_dim) :: rest =>
      attn <- call_linear layer attn ;;
      attn <- torch (Tanh attn) ;;
      attention_loop rest attn
  end.

(** Reading a local variable that may not have been assigned. *)
Definition local (name : string) (v : option expr) : M World expr :=
  match v with
  | Some e => ret e
  | None =>
      raise (UnboundLocalError
               ("local variable '" ++ name ++ "' referenced before assignment"))
  end.

(** Lines 172-181: what [forward] reads off its argument.  For a packed
    sequence, [sequence.data.size()] is [(_, n_features)] and the batch
    size is [sequence.batch_sizes[0]]; for a tensor, [sequence.size()] is
    [(batch_size, _, n_features)]. *)
Definition isinstance_PackedSequence (sequence : sequence_arg) : bool :=
  match sequence with Packed _ => true | Dense _ => false end.

Definition input_batch_size (sequence : sequence_arg) : Z :=
  match sequence with Packed p => batch_sizes_0 p | Dense t => size0 t end.

Definition input_n_features (sequence : sequence_arg) : Z :=
  match sequence with Packed p => data_size1 p | Dense t => size2 t end.

Definition input_device (sequence : sequence_arg) : device :=
  match sequence with Packed p => data_device p | Dense t => tensor_device t end.

(** Lines 172-270: everything up to and including batch normalization.
    Returns the embedding that the output normalization then works on.
    [F.instance_norm] (line 191) is a node of the graph like the other
    tensor operations; the library refuses it on sequences of a single
    frame, so the statements below that a call returns, or that compare
    two calls, take sequences of more than one frame where it is in
    use. *)
Definition embed (sequence : sequence_arg) : M World expr :=
  let packed_sequences := isinstance_PackedSequence sequence in
  let batch_size := input_batch_size sequence in
  let n_features' := input_n_features sequence in
  let device := input_device sequence in
  self <- getself ;;
  if negb (n_features' =? n_features self) then
    raise (ValueError (msg_wrong_dimension n_features' (n_features self)))
  else
    let output := Arg sequence in
    sequence <-
      (if instance_normalize self then
         sequence <- transpose (Arg sequence) 1 2 ;;
         sequence <- torch (InstanceNorm sequence) ;;
         transpose sequence 1 2
       else ret (Arg sequence)) ;;
    (if weighted self then
       alphas_ <- getattr_alphas_ ;;
       alphas_ <- torch (to alphas_ device) ;;
       setattr_alphas_ alphas_
     else ret tt) ;;
    r <- recurrent_loop (rnn self) (num_directions_ self) batch_size device
           (combine (recurrent self) (recurrent_layers_ self)) output [] ;;
    let outputs := snd r in
    outputs <- (if packed_sequences then unpack_outputs outputs else ret outputs) ;;
    output <- cat outputs 2 ;;
    output <-
      (if weighted self then
         alphas_ <- getattr_alphas_ ;;
         torch (Mul output alphas_)
       else ret output) ;;
    output <- linear_loop (combine (linear self) (linear_layers_ self)) output ;;
    output <-
      (if negb (is_empty (attention_layers_ self)) then
         attn <- attention_loop
                   (combine (attention_layers_ self) (attention self ++ [1]))
                   sequence ;;
         if packed_sequences then raise (NotImplementedError msg_attention)
         else
           attn <- torch (Softmax attn 1) ;;
           torch (Mul output attn)
       else ret output) ;;
    output <-
      (if (pooling self =? "sum")%string then torch (SumDim output 1)
       else if (pooling self =? "max")%string then
         if packed_sequences then raise (NotImplementedError msg_max)
         else torch (MaxDim output 1)
       else ret output) ;;
    if batch_normalize self then call_batch_norm "batch_norm_" output
    else ret output.

(** Lines 272-287: output normalization. *)
Definition normalize_output (output : expr) : M World expr :=
  self <- getself ;;
  norm <-
    (if truthy (normalize self) then
       norm <- torch (Norm output 2 1 true) ;;
       ret (Some norm)
     else ret None) ;;
  if py_eq_str (normalize self) "sphere" then
    norm <- local "norm" norm ;;
    torch (Div output norm)
  else if py_eq_str (normalize self) "ball" then
    norm <- local "norm" norm ;;
    unit_ <- torch (Div output norm) ;;
    b <- call_batch_norm "norm_batch_norm_" norm ;;
    s <- torch (Sigmoid b) ;;
    torch (Mul unit_ s)
  else if py_eq_str (normalize self) "ring" then
    norm <- local "norm" norm ;;
    norm_ <- call_batch_norm "norm_batch_norm_" norm ;;
    unit_ <- torch (Div output norm) ;;
    b <- call_batch_norm "norm_batch_norm_" norm ;;
    s <- torch (Sigmoid b) ;;
    s <- torch (AddScalar 1 s) ;;
    torch (Mul unit_ s)
  else ret output.

(** [ClopiNet.forward], lines 170-287. *)
Definition forward (sequence : sequence_arg) : M World expr :=
  output <- embed sequence ;;
  normalize_output output.

(** [model(sequence)] on the module [m], starting from an empty tape. *)
Definition run_forward (m : ClopiNet) (sequence : sequence_arg)
  : World * (exn + expr) :=
  forward sequence {| self_ := m; tape := [] |}.

(** * Notions used to state and prove the properties *)

(** [c] started in [s] returns (does not raise), and [Q] holds of the
    final state and the value. *)
Definition returns {S A} (c : M S A) (s : S) (Q : S -> A -> Prop) : Prop :=
  exists s' a, c s = (s', inr a) /\ Q s' a.

(** Whatever [c] does, returning or raising, the state it leaves is
    related to the state it started in by [R]. *)
Definition keeps {S A} (R : S -> S -> Prop) (c : M S A) : Prop :=
  forall s, R s (fst (c s)).

(** The configuration attributes, as one value. *)
Definition config_view (m : ClopiNet) :=
  (n_features m, rnn m, recurrent m, bidirectional m, pooling m,
   (instance_normalize m, batch_normalize m, normalize m, weighted m),
   (linear m, attention m, num_directions_ m)).

(** [self.rnn] is one of the two supported kinds. *)
Definition rnn_ok (s : string) : bool :=
  ((s =? "LSTM") || (s =? "GRU"))%string.

(** The object after one pass through the body of the recurrent loop of
    [__init__]. *)
Definition with_recurrent (i : Z) (l : layer) (s : ClopiNet) : ClopiNet :=
  let s' :=
    set_modules (assign ("recurrent_" ++ str i)%string (Layer l) (_modules s)) s in
  set_recurrent_layers_ (recurrent_layers_ s' ++ [l]) s'.

(** What the steps of [__init__] that only add layers leave alone. *)
Definition layers_only (s s' : ClopiNet) : Prop :=
  config_view s' = config_view s /\
  recurrent_layers_ s' = recurrent_layers_ s /\
  _parameters s' = _parameters s.

(** What a construction that returns leaves behind. *)
Definition constructed (c : Config) (m : ClopiNet) : Prop :=
  config_view m = config_view (set_config c blank) /\
  length (recurrent_layers_ m) = length (cfg_recurrent c) /\
  (cfg_weighted c = true ->
   lookup "alphas_" (_parameters m) =
   Some (Param (Ones (sum (cfg_recurrent c) * directions (cfg_bidirectional c))))) /\
  (attention m = [] -> attention_layers_ m = []).

(** The module object is the same (only the tape may have grown). *)
Definition same_self (w w' : World) : Prop := self_ w' = self_ w.

(** Two registry entries that differ at most in the running statistics
    of a batch-normalization layer. *)
Definition same_but_stats (a b : string * submodule) : Prop :=
  fst b = fst a /\
  match snd a, snd b with
  | Layer l, Layer l' => l' = l
  | BatchNorm bn, BatchNorm bn' =>
      bn' = set_running_stats (running_stats bn') bn
  | _, _ => False
  end.

(** Every attribute of the module is the same, except for the running
    statistics of its batch-normalization layers. *)
Definition unchanged_but_stats (m m' : ClopiNet) : Prop :=
  config_view m' = config_view m /\
  recurrent_layers_ m' = recurrent_layers_ m /\
  linear_layers_ m' = linear_layers_ m /\
  attention_layers_ m' = attention_layers_ m /\
  _parameters m' = _parameters m /\
  Forall2 same_but_stats (_modules m) (_modules m').

Definition frame (w w' : World) : Prop :=
  unchanged_but_stats (self_ w) (self_ w').

(** [c] started in [s] raises [e]. *)
Definition raises {S A} (c : M S A) (s : S) (e : exn) : Prop :=
  exists s', c s = (s', inl e).

(** The configuration [c] with [normalize] set to [v]. *)
Definition with_normalize (v : pyval) (c : Config) : Config :=
  {| cfg_n_features := cfg_n_features c; cfg_rnn := cfg_rnn c;
     cfg_recurrent := cfg_recurrent c; cfg_bidirectional := cfg_bidirectional c;
     cfg_pooling := cfg_pooling c;
     cfg_instance_normalize := cfg_instance_normalize c;
     cfg_batch_normalize := cfg_batch_normalize c;
     cfg_normalize := v;
     cfg_weighted := cfg_weighted c;
     cfg_linear := cfg_linear c; cfg_attention := cfg_attention c |}.

(** ** Inputs used in the examples *)

(** A dense batch of one sequence of four frames with two features. *)
Definition x_dense (d : device) : sequence_arg :=
  Dense {| tensor_name := "x"; size0 := 1; size1 := 4; size2 := 2;
           tensor_device := d |}.

(** Two packed sequences of lengths 3 and 2 with [n] features. *)
Definition x_packed (n : Z) (d : device) : sequence_arg :=
  Packed {| data_name := "x"; data_size0 := 5; data_size1 := n;
            batch_sizes_0 := 2; batch_sizes_rest := [2; 1];
            data_device := d |}.


(** [small] with [instance_normalize=True, attention=[1]] *)
Definition small_instance_normalized : Config :=
  {| cfg_n_features := 2; cfg_rnn := "GRU"; cfg_recurrent := [3];
     cfg_bidirectional := false; cfg_pooling := "sum";
     cfg_instance_normalize := true; cfg_batch_normalize := false;
     cfg_normalize := PyBool false; cfg_weighted := false;
     cfg_linear := None; cfg_attention := Some [1] |}.

(** [small] with [rnn='RNN', recurrent=[]] *)
Definition small_no_recurrent : Config :=
  {| cfg_n_features := 2; cfg_rnn := "RNN"; cfg_recurrent := [];
     cfg_bidirectional := false; cfg_pooling := "sum";
     cfg_instance_normalize := false; cfg_batch_normalize := false;
     cfg_normalize := PyBool false; cfg_weighted := false;
     cfg_linear := None; cfg_attention := None |}.

(** [small] with [rnn='RNN'] *)
Definition small_rnn : Config :=
  {| cfg_n_features := 2; cfg_rnn := "RNN"; cfg_recurrent := [3];
     cfg_bidirectional := false; cfg_pooling := "sum";
     cfg_instance_normalize := false; cfg_batch_normalize := false;
     cfg_normalize := PyBool false; cfg_weighted := false;
     cfg_linear := None; cfg_attention := None |}.

(** [small] with [pooling='avg'] *)
Definition small_avg : Config :=
  {| cfg_n_features := 2; cfg_rnn := "GRU"; cfg_recurrent := [3];
     cfg_bidirectional := false; cfg_pooling := "avg";
     cfg_instance_normalize := false; cfg_batch_normalize := false;
     cfg_normalize := PyBool false; cfg_weighted := false;
     cfg_linear := None; cfg_attention := None |}.

(** [small] with [pooling='max'] *)
Definition small_max : Config :=
  {| cfg_n_features := 2; cfg_rnn := "GRU"; cfg_recurrent := [3];
     cfg_bidirectional := false; cfg_pooling := "max";
     cfg_instance_normalize := false; cfg_batch_normalize := false;
     cfg_normalize := PyBool false; cfg_weighted := false;
     cfg_linear := None; cfg_attention := None |}.

(** [small] with [attention=[16]] *)
Definition small_attention : Config :=
  {| cfg_n_features := 2; cfg_rnn := "GRU"; cfg_recurrent := [3];
     cfg_bidirectional := false; cfg_pooling := "sum";
     cfg_instance_normalize := false; cfg_batch_normalize := false;
     cfg_normalize := PyBool false; cfg_weighted := false;
     cfg_linear := None; cfg_attention := Some [16] |}.

(** [small] with [pooling='max', weighted=True] *)
Definition small_max_weighted : Config :=
  {| cfg_n_features := 2; cfg_rnn := "GRU"; cfg_recurrent := [3];
     cfg_bidirectional := false; cfg_pooling := "max";
     cfg_instance_normalize := false; cfg_batch_normalize := false;
     cfg_normalize := PyBool false; cfg_weighted := true;
     cfg_linear := None; cfg_attention := None |}.

(** [small] with [pooling='max', instance_normalize=True] *)
Definition small_max_instance_normalized : Config :=
  {| cfg_n_features := 2; cfg_rnn := "GRU"; cfg_recurrent := [3];
     cfg_bidirectional := false; cfg_pooling := "max";
     cfg_instance_normalize := true; cfg_batch_normalize := false;
     cfg_normalize := PyBool false; cfg_weighted := false;
     cfg_linear := None; cfg_attention := None |}.

(** [small] with [pooling='max', recurrent=[]] *)
Definition small_max_no_recurrent : Config :=
  {| cfg_n_features := 2; cfg_rnn := "GRU"; cfg_recurrent := [];
     cfg_bidirectional := false; cfg_pooling := "max";
     cfg_instance_normalize := false; cfg_batch_normalize := false;
     cfg_normalize := PyBool false; cfg_weighted := false;
     cfg_linear := None; cfg_attention := None |}.

(** [small] with [batch_normalize=True, normalize='cube', linear=[5]] *)
Definition small_cube : Config :=
  {| cfg_n_features := 2; cfg_rnn := "GRU"; cfg_recurrent := [3];
     cfg_bidirectional := false; cfg_pooling := "sum";
     cfg_instance_normalize := false; cfg_batch_normalize := true;
     cfg_normalize := PyStr "cube"; cfg_weighted := false;
     cfg_linear := Some [5]; cfg_attention := None |}.





(** ** What construction builds, in closed form *)

(** The recurrent layers of lines 106-120: each takes the output width
    of the one before, the first takes the features. *)
Fixpoint recurrent_chain (rnn : string) (bidirectional : bool)
    (input_dim : Z) (hidden_dims : list Z) : list layer :=
  match hidden_dims with
  | [] => []
  | hidden_dim :: rest =>
      (if (rnn =? "LSTM")%string
       then LSTM input_dim hidden_dim bidirectional true
       else GRU input_dim hidden_dim bidirectional true)
      :: recurrent_chain rnn bidirectional
           (hidden_dim * directions bidirectional) rest
  end.

(** A stack of linear layers fed with [input_dim] values. *)
Fixpoint linear_chain (input_dim : Z) (hidden_dims : list Z) : list layer :=
  match hidden_dims with
  | [] => []
  | hidden_dim :: rest =>
      Linear input_dim hidden_dim true :: linear_chain hidden_dim rest
  end.

(** The attention layers of lines 152-162: a stack fed with the
    features, closed by a layer to one value unless the stack is empty
    or already ends in a width of at most one. *)
Definition attention_chain (n_features : Z) (hidden_dims : list Z) : list layer :=
  linear_chain n_features hidden_dims ++
  (if is_empty hidden_dims then []
   else if last hidden_dims n_features >? 1
        then [Linear (last hidden_dims n_features) 1 true]
        else []).

(** Registering [layers] under [prefix0], [prefix1], ... from index [i]. *)
Fixpoint register_all (prefix : string) (i : Z) (layers : list layer)
    (modules : list (string * submodule)) : list (string * submodule) :=
  match layers with
  | [] => modules
  | l :: rest =>
      register_all prefix (i + 1) rest
        (assign (prefix ++ str i)%string (Layer l) modules)
  end.

(** [c.linear] and [c.attention], with [None] read as the empty list. *)
Definition linear_of (c : Config) : list Z :=
  match cfg_linear c with None => [] | Some l => l end.

Definition attention_of (c : Config) : list Z :=
  match cfg_attention c with None => [] | Some l => l end.

(** The width of the concatenated recurrent outputs. *)
Definition recurrent_width (c : Config) : Z :=
  sum (cfg_recurrent c) * directions (cfg_bidirectional c).

(** The registry of sub-layers after construction. *)
Definition built_modules (c : Config) : list (string * submodule) :=
  let recurrent_layers :=
    recurrent_chain (cfg_rnn c) (cfg_bidirectional c) (cfg_n_features c)
      (cfg_recurrent c) in
  let linear_layers := linear_chain (recurrent_width c) (linear_of c) in
  let m1 := register_all "recurrent_" 0 recurrent_layers [] in
  let m2 := register_all "linear_" 0 linear_layers m1 in
  let m3 :=
    if cfg_batch_normalize c then
      assign "batch_norm_"
        (BatchNorm (nn_BatchNorm1d (last (linear_of c) (recurrent_width c))
                      (1 # 100000) (1 # 10) false)) m2
    else m2 in
  let m4 :=
    if py_in_strs (cfg_normalize c) ["ball"; "ring"] then
      assign "norm_batch_norm_"
        (BatchNorm (nn_BatchNorm1d 1 (1 # 100000) (1 # 10) false)) m3
    else m3 in
  register_all "attention_" 0
    (attention_chain (cfg_n_features c) (attention_of c)) m4.

(** The module a construction that returns leaves behind. *)
Definition built (c : Config) : ClopiNet :=
  {| n_features := cfg_n_features c;
     rnn := cfg_rnn c;
     recurrent := cfg_recurrent c;
     bidirectional := cfg_bidirectional c;
     pooling := cfg_pooling c;
     instance_normalize := cfg_instance_normalize c;
     batch_normalize := cfg_batch_normalize c;
     normalize := cfg_normalize c;
     weighted := cfg_weighted c;
     linear := linear_of c;
     attention := attention_of c;
     num_directions_ := if cfg_bidirectional c then 2 else 1;
     recurrent_layers_ :=
       recurrent_chain (cfg_rnn c) (cfg_bidirectional c) (cfg_n_features c)
         (cfg_recurrent c);
     linear_layers_ := linear_chain (recurrent_width c) (linear_of c);
     attention_layers_ := attention_chain (cfg_n_features c) (attention_of c);
     _parameters :=
       if cfg_weighted c
       then [("alphas_", Param (Ones (recurrent_width c)))] else [];
     _modules := built_modules c |}.

(** ** Widths of layers *)

(** The width of the last axis a layer takes. *)
Definition input_width (l : layer) : Z :=
  match l with
  | LSTM input_size _ _ _ | GRU input_size _ _ _ => input_size
  | Linear in_features _ _ => in_features
  end.

(** The width of the last axis a layer gives: a recurrent layer gives
    its hidden size once per direction. *)
Definition output_width (l : layer) : Z :=
  match l with
  | LSTM _ hidden_size b _ | GRU _ hidden_size b _ => hidden_size * directions b
  | Linear _ out_features _ => out_features
  end.

(** The size a layer was asked for: the hidden size of a recurrent
    layer, the output size of a linear one. *)
Definition size_of (l : layer) : Z :=
  match l with
  | LSTM _ hidden_size _ _ | GRU _ hidden_size _ _ => hidden_size
  | Linear _ out_features _ => out_features
  end.

(** The class of a layer, as [rnn] names it. *)
Definition kind_of (l : layer) : string :=
  match l with
  | LSTM _ _ _ _ => "LSTM"
  | GRU _ _ _ _ => "GRU"
  | Linear _ _ _ => "Linear"
  end.

(** [layers] can be stacked on an input of width [input_dim]: each takes
    the width the one before it gives. *)
Fixpoint chained (input_dim : Z) (layers : list layer) : bool :=
  match layers with
  | [] => true
  | l :: rest => (input_width l =? input_dim) && chained (output_width l) rest
  end.

(** The width that comes out of [layers] stacked on [input_dim]. *)
Definition stack_width (input_dim : Z) (layers : list layer) : Z :=
  match layers with
  | [] => input_dim
  | _ => output_width (last layers (Linear 0 0 true))
  end.

(** The recurrent layers the way [rnn] and [bidirectional] ask for. *)
Definition recurrent_as_configured (c : Config) (l : layer) : bool :=
  match l with
  | LSTM _ _ b batch_first | GRU _ _ b batch_first =>
      (kind_of l =? cfg_rnn c)%string && Bool.eqb b (cfg_bidirectional c)
      && batch_first
  | Linear _ _ _ => false
  end.

(** ** Notions for the forward pass *)

(** Whatever state [c] starts in: a value it returns satisfies [R], an
    exception it raises satisfies [E]. *)
Definition post {S A} (c : M S A) (R : A -> Prop) (E : exn -> Prop) : Prop :=
  forall s,
    match snd (c s) with
    | inr a => R a
    | inl e => E e
    end.

(** Every batch-normalization layer of the module is in evaluation
    mode. *)
Definition eval_mode (m : ClopiNet) : bool :=
  forallb (fun kv => match snd kv with
                     | BatchNorm bn => negb (training bn)
                     | Layer _ => true
                     end) (_modules m).

(** [model.eval()] of [nn.Module]: every sub-layer is switched to
    evaluation mode.  Of the sub-layers of a [ClopiNet] only batch
    normalization behaves differently there. *)
Definition eval_ (m : ClopiNet) : ClopiNet :=
  set_modules
    (map (fun kv => match snd kv with
                    | BatchNorm bn =>
                        (fst kv,
                         BatchNorm
                           {| num_features := num_features bn; eps := eps bn;
                              momentum := momentum bn; affine := affine bn;
                              training := false;
                              running_stats := running_stats bn |})
                    | Layer l => (fst kv, Layer l)
                    end) (_modules m)) m.

(** Lines 220-270 of [forward], from the collected outputs of the
    recurrent layers on. *)
Definition embed_from_outputs (self : ClopiNet) (packed_sequences : bool)
    (sequence : expr) (outputs : list expr) : M World expr :=
  outputs <- (if packed_sequences then unpack_outputs outputs else ret outputs) ;;
  output <- cat outputs 2 ;;
  output <-
    (if weighted self then
       alphas_ <- getattr_alphas_ ;;
       torch (Mul output alphas_)
     else ret output) ;;
  output <- linear_loop (combine (linear self) (linear_layers_ self)) output ;;
  output <-
    (if negb (is_empty (attention_layers_ self)) then
       attn <- attention_loop
                 (combine (attention_layers_ self) (attention self ++ [1]))
                 sequence ;;
       if packed_sequences then raise (NotImplementedError msg_attention)
       else
         attn <- torch (Softmax attn 1) ;;
         torch (Mul output attn)
     else ret output) ;;
  output <-
    (if (pooling self =? "sum")%string then torch (SumDim output 1)
     else if (pooling self =? "max")%string then
       if packed_sequences then raise (NotImplementedError msg_max)
       else torch (MaxDim output 1)
     else ret output) ;;
  if batch_normalize self then call_batch_norm "batch_norm_" output
  else ret output.

(** Lines 187-218 of [forward]: instance normalization, the weights
    moved to the device, and the recurrent layers. *)
Definition embed_to_outputs (self : ClopiNet) (arg : sequence_arg)
  : M World (expr * list expr) :=
  sequence <-
    (if instance_normalize self then
       sequence <- transpose (Arg arg) 1 2 ;;
       sequence <- torch (InstanceNorm sequence) ;;
       transpose sequence 1 2
     else ret (Arg arg)) ;;
  (if weighted self then
     alphas_ <- getattr_alphas_ ;;
     alphas_ <- torch (to alphas_ (input_device arg)) ;;
     setattr_alphas_ alphas_
   else ret tt) ;;
  r <- recurrent_loop (rnn self) (num_directions_ self) (input_batch_size arg)
         (input_device arg)
         (combine (recurrent self) (recurrent_layers_ self)) (Arg arg) [] ;;
  ret (sequence, snd r).

(** What the second half leaves for the output normalization to read. *)
Definition ready_to_normalize (c : Config) (w : World) : Prop :=
  normalize (self_ w) = cfg_normalize c /\
  lookup "norm_batch_norm_" (_modules (self_ w)) =
  lookup "norm_batch_norm_" (built_modules c).

(** An exception that is neither of the two errors [forward] raises on
    purpose: the one about unsupported combinations and the one about
    the feature dimension. *)
Definition incidental (e : exn) : Prop :=
  (forall msg, e <> NotImplementedError msg) /\
  (forall a b, e <> ValueError (msg_wrong_dimension a b)).

(** [c] returns or raises an incidental exception. *)
Definition quiet {A} (c : M World A) : Prop :=
  post c (fun _ => True) incidental.

(** From a module in evaluation mode, the module object is left as it
    was. *)
Definition kept_in_eval (w w' : World) : Prop :=
  eval_mode (self_ w) = true -> self_ w' = self_ w.


(** ** Inputs the library accepts *)

(** The batch sizes of a packed sequence are positive and do not
    increase. *)
Fixpoint non_increasing (previous : Z) (sizes : list Z) : bool :=
  match sizes with
  | [] => true
  | size :: rest =>
      (0 <? size) && (size <=? previous) && non_increasing size rest
  end.

(** A packed sequence as [pack_padded_sequence] makes it: positive batch
    sizes that do not increase and add up to the rows of [data]. *)
Definition well_packed (p : PackedSequence) : bool :=
  (0 <? batch_sizes_0 p)
  && non_increasing (batch_sizes_0 p) (batch_sizes_rest p)
  && (data_size0 p =? batch_sizes_0 p + sum (batch_sizes_rest p)).

(** A dense batch of two sequences of four frames with two features. *)
Definition x_pair (d : device) : sequence_arg :=
  Dense {| tensor_name := "x"; size0 := 2; size1 := 4; size2 := 2;
           tensor_device := d |}.

(** * Reasoning about computations *)

Section Computations.
Context {S : Type}.

Lemma returns_ret {A} (a : A) (s : S) (Q : S -> A -> Prop) :
  Q s a -> returns (ret a) s Q.
Proof. intros H. exists s, a. split; [reflexivity | exact H]. Qed.

Lemma returns_bind {A B} (c : M S A) (k : A -> M S B) s Q1 Q2 :
  returns c s Q1 ->
  (forall s' a, Q1 s' a -> returns (k a) s' Q2) ->
  returns (bind c k) s Q2.
Proof.
  intros (s' & a & Hc & HQ) Hk.
  destruct (Hk s' a HQ) as (s'' & b & Hkb & HQ2).
  exists s'', b. split; [| exact HQ2].
  unfold bind. rewrite Hc. exact Hkb.
Qed.

Lemma returns_weaken {A} (c : M S A) s (Q1 Q2 : S -> A -> Prop) :
  returns c s Q1 -> (forall s' a, Q1 s' a -> Q2 s' a) -> returns c s Q2.
Proof.
  intros (s' & a & Hc & HQ) H. exists s', a. split; [exact Hc | auto].
Qed.

Lemma returns_modify (f : S -> S) s (Q : S -> unit -> Prop) :
  Q (f s) tt -> returns (modify f) s Q.
Proof. intros H. exists (f s), tt. split; [reflexivity | exact H]. Qed.

Lemma returns_get s (Q : S -> S -> Prop) :
  Q s s -> returns get s Q.
Proof. intros H. exists s, s. split; [reflexivity | exact H]. Qed.

(** A computation whose first step returns continues from there; one
    whose first step raises stops there. *)
Lemma bind_returns {A B} (c : M S A) (k : A -> M S B) s s' a :
  c s = (s', inr a) -> bind c k s = k a s'.
Proof. intros H. unfold bind. rewrite H. reflexivity. Qed.

Lemma bind_raises {A B} (c : M S A) (k : A -> M S B) s s' e :
  c s = (s', inl e) -> bind c k s = (s', inl e).
Proof. intros H. unfold bind. rewrite H. reflexivity. Qed.

Lemma keeps_weaken {A} (R R' : S -> S -> Prop) (c : M S A) :
  (forall s s', R s s' -> R' s s') -> keeps R c -> keeps R' c.
Proof. intros H Hc s. apply H, Hc. Qed.

Section Preorder.
Variable R : S -> S -> Prop.
Hypothesis R_refl : forall s, R s s.
Hypothesis R_trans : forall s1 s2 s3, R s1 s2 -> R s2 s3 -> R s1 s3.

Lemma keeps_ret {A} (a : A) : keeps R (ret a).
Proof. intros s. apply R_refl. Qed.

Lemma keeps_raise {A} (e : exn) : keeps R (@raise S A e).
Proof. intros s. apply R_refl. Qed.

Lemma keeps_bind {A B} (c : M S A) (k : A -> M S B) :
  keeps R c -> (forall a, keeps R (k a)) -> keeps R (bind c k).
Proof.
  intros Hc Hk s. unfold bind.
  specialize (Hc s). destruct (c s) as [s' [e | a]]; simpl in *.
  - exact Hc.
  - eapply R_trans; [exact Hc | apply Hk].
Qed.

Lemma keeps_if {A} (b : bool) (c1 c2 : M S A) :
  keeps R c1 -> keeps R c2 -> keeps R (if b then c1 else c2).
Proof. destruct b; auto. Qed.

End Preorder.
End Computations.

(** * Facts about registries *)

Lemma lookup_assign {A} name (v : A) d : lookup name (assign name v d) = Some v.
Proof.
  induction d as [| [k w] rest IH]; simpl.
  - rewrite String.eqb_refl. reflexivity.
  - destruct (k =? name)%string eqn:E; simpl; rewrite E; auto.
Qed.

Lemma assign_lookup {A} name (v : A) d :
  lookup name d = Some v -> assign name v d = d.
Proof.
  induction d as [| [k w] rest IH]; simpl; [discriminate |].
  destruct (k =? name)%string.
  - intros [= ->]. reflexivity.
  - intros H. rewrite IH by exact H. reflexivity.
Qed.

(** * Facts about construction *)

Example construct_default :
  construct (defaults 40) =
  ({| n_features := 40; rnn := "LSTM"; recurrent := [64; 64; 64];
      bidirectional := false; pooling := "sum"; instance_normalize := false;
      batch_normalize := true; normalize := PyBool false; weighted := false;
      linear := []; attention := []; num_directions_ := 1;
      recurrent_layers_ :=
        [LSTM 40 64 false true; LSTM 64 64 false true; LSTM 64 64 false true];
      linear_layers_ := []; attention_layers_ := []; _parameters := [];
      _modules :=
        [("recurrent_0", Layer (LSTM 40 64 false true));
         ("recurrent_1", Layer (LSTM 64 64 false true));
         ("recurrent_2", Layer (LSTM 64 64 false true));
         ("batch_norm_",
          BatchNorm (nn_BatchNorm1d 192 (1 # 100000) (1 # 10) false))] |},
   inr tt).
Proof. reflexivity. Qed.

Example output_dim_default :
  output_dim (fst (construct (defaults 40))) = 192.
Proof. reflexivity. Qed.

Lemma init_recurrent_LSTM i hidden_dim rest d s :
  rnn s = "LSTM" ->
  init_recurrent i (hidden_dim :: rest) d s =
  init_recurrent (i + 1) rest (hidden_dim * directions (bidirectional s))
    (with_recurrent i (LSTM d hidden_dim (bidirectional s) true) s).
Proof.
  intros E. cbn [init_recurrent]. unfold bind, get. rewrite E. reflexivity.
Qed.

Lemma init_recurrent_GRU i hidden_dim rest d s :
  rnn s = "GRU" ->
  init_recurrent i (hidden_dim :: rest) d s =
  init_recurrent (i + 1) rest (hidden_dim * directions (bidirectional s))
    (with_recurrent i (GRU d hidden_dim (bidirectional s) true) s).
Proof.
  intros E. cbn [init_recurrent]. unfold bind, get. rewrite E. reflexivity.
Qed.

Lemma init_recurrent_invalid i hidden_dim rest d s :
  rnn_ok (rnn s) = false ->
  init_recurrent i (hidden_dim :: rest) d s = (s, inl (ValueError msg_rnn)).
Proof.
  unfold rnn_ok. intros E. apply orb_false_elim in E as [EL EG].
  cbn [init_recurrent]. unfold bind, get. rewrite EL, EG. reflexivity.
Qed.

Lemma rnn_ok_cases s : rnn_ok s = true -> s = "LSTM" \/ s = "GRU".
Proof.
  unfold rnn_ok. intros H. apply orb_true_iff in H as [H | H];
    apply String.eqb_eq in H; auto.
Qed.

Lemma init_recurrent_spec dims :
  forall i d s,
    config_view (fst (init_recurrent i dims d s)) = config_view s /\
    _parameters (fst (init_recurrent i dims d s)) = _parameters s /\
    snd (init_recurrent i dims d s) =
      (if is_empty dims || rnn_ok (rnn s) then inr tt
       else inl (ValueError msg_rnn)) /\
    (snd (init_recurrent i dims d s) = inr tt ->
     length (recurrent_layers_ (fst (init_recurrent i dims d s))) =
     (length (recurrent_layers_ s) + length dims)%nat).
Proof.
  induction dims as [| hidden_dim rest IH]; intros i d s.
  - simpl. repeat split; auto.
  - cbn [is_empty orb].
    destruct (rnn_ok (rnn s)) eqn:E.
    + assert (exists l, init_recurrent i (hidden_dim :: rest) d s =
                init_recurrent (i + 1) rest
                  (hidden_dim * directions (bidirectional s))
                  (with_recurrent i l s)) as [l ->].
      { destruct (rnn_ok_cases _ E) as [H | H].
        - eexists. apply init_recurrent_LSTM, H.
        - eexists. apply init_recurrent_GRU, H. }
      destruct (IH (i + 1) (hidden_dim * directions (bidirectional s))
                  (with_recurrent i l s)) as (C & P & O & L).
      rewrite C, P, O.
      change (rnn (with_recurrent i l s)) with (rnn s). rewrite E, orb_true_r.
      repeat split; auto.
      intros _. rewrite L by (rewrite O; change (rnn (with_recurrent i l s)) with (rnn s); rewrite E, orb_true_r; reflexivity).
      cbn [with_recurrent recurrent_layers_ set_recurrent_layers_ set_modules].
      rewrite length_app. simpl. lia.
    + rewrite init_recurrent_invalid by exact E.
      simpl. repeat split; auto. discriminate.
Qed.
Lemma layers_only_refl s : layers_only s s.
Proof. repeat split. Qed.

Lemma layers_only_trans s1 s2 s3 :
  layers_only s1 s2 -> layers_only s2 s3 -> layers_only s1 s3.
Proof. intros (A1 & B1 & C1) (A2 & B2 & C2). repeat split; congruence. Qed.

Create HintDb init.
#[local] Hint Resolve layers_only_refl : init.

Lemma add_module_returns name sm s :
  returns (add_module name sm) s (fun s' _ => layers_only s s').
Proof. apply returns_modify. repeat split. Qed.

Lemma init_linear_returns dims :
  forall i d s, returns (init_linear i dims d) s (fun s' _ => layers_only s s').
Proof.
  induction dims as [| hidden_dim rest IH]; intros i d s; cbn [init_linear].
  - apply returns_ret. auto with init.
  - eapply returns_bind; [apply add_module_returns |].
    intros s1 u1 H1; cbv beta in *. eapply returns_bind.
    { apply returns_modify with
        (Q := fun s' _ => layers_only s s').
      eapply layers_only_trans; [exact H1 | repeat split]. }
    intros s2 u2 H2; cbv beta in *. eapply returns_weaken; [apply IH |].
    intros s3 u3 H3; cbv beta in *. eapply layers_only_trans; eauto.
Qed.

Lemma init_attention_returns dims :
  forall i d s, returns (init_attention i dims d) s (fun s' _ => layers_only s s').
Proof.
  induction dims as [| hidden_dim rest IH]; intros i d s; cbn [init_attention].
  - apply returns_ret. auto with init.
  - eapply returns_bind; [apply add_module_returns |].
    intros s1 u1 H1; cbv beta in *. eapply returns_bind.
    { apply returns_modify with
        (Q := fun s' _ => layers_only s s').
      eapply layers_only_trans; [exact H1 | repeat split]. }
    intros s2 u2 H2; cbv beta in *. eapply returns_weaken; [apply IH |].
    intros s3 u3 H3; cbv beta in *. eapply layers_only_trans; eauto.
Qed.

Lemma create_linear_layers_returns d s :
  returns (create_linear_layers d) s (fun s' _ => layers_only s s').
Proof.
  unfold create_linear_layers.
  eapply returns_bind.
  { apply returns_modify with (Q := fun s' _ => layers_only s s'). repeat split. }
  intros s1 u1 H1; cbv beta in *. eapply returns_bind.
  { apply returns_get with (Q := fun s' a => s' = s1 /\ a = s1). auto. }
  intros s2 a [-> ->]; cbv beta in *. eapply returns_weaken; [apply init_linear_returns |].
  intros s3 u3 H3; cbv beta in *. eapply layers_only_trans; eauto.
Qed.

Lemma create_batch_norms_returns d s :
  returns (create_batch_norms d) s (fun s' _ => layers_only s s').
Proof.
  unfold create_batch_norms.
  eapply returns_bind.
  { apply returns_get with (Q := fun s' a => s' = s /\ a = s). auto. }
  intros s1 a [-> ->]; cbv beta in *. eapply returns_bind.
  { instantiate (1 := fun s' _ => layers_only s s').
    destruct (batch_normalize s).
    - apply add_module_returns.
    - apply returns_ret. auto with init. }
  intros s2 u2 H2; cbv beta in *.
  destruct (py_in_strs (normalize s) ["ball"; "ring"]).
  - eapply returns_weaken; [apply add_module_returns |].
    intros s3 u3 H3; cbv beta in *. eapply layers_only_trans; eauto.
  - apply returns_ret. exact H2.
Qed.

Lemma create_attention_layers_returns s :
  returns create_attention_layers s
    (fun s' _ => layers_only s s' /\
                 (attention s = [] -> attention_layers_ s' = [])).
Proof.
  unfold create_attention_layers.
  eapply returns_bind.
  { apply returns_modify with
      (Q := fun s' _ => s' = set_attention_layers_ [] s). reflexivity. }
  intros s1 u1 ->; cbv beta in *. eapply returns_bind.
  { apply returns_get with (Q := fun s' a => s' = set_attention_layers_ [] s /\ a = s'). auto. }
  intros s2 a [-> ->]; cbv beta in *.
  change (attention (set_attention_layers_ [] s)) with (attention s).
  change (n_features (set_attention_layers_ [] s)) with (n_features s).
  destruct (attention s) as [| a0 att] eqn:EA; cbn [is_empty].
  - apply returns_ret. split; [repeat split | reflexivity].
  - eapply returns_bind; [apply init_attention_returns |].
    intros s3 d H3; cbv beta in *. cbv beta in H3.
    assert (layers_only s s3) as H3'.
    { eapply layers_only_trans; [| exact H3]. repeat split. }
    destruct (d >? 1).
    + eapply returns_bind.
      { eapply returns_weaken; [apply add_module_returns |].
        intros s4 u4 H4; cbv beta in *. exact (layers_only_trans _ _ _ H3' H4). }
      intros s4 u4 H4; cbv beta in *. apply returns_modify. split; [| discriminate].
      eapply layers_only_trans; [exact H4 | repeat split].
    + apply returns_ret. split; [exact H3' | discriminate].
Qed.

Lemma init_recurrent_returns dims i d s :
  is_empty dims || rnn_ok (rnn s) = true ->
  returns (init_recurrent i dims d) s
    (fun s' _ => config_view s' = config_view s /\
                 _parameters s' = _parameters s /\
                 length (recurrent_layers_ s') =
                 (length (recurrent_layers_ s) + length dims)%nat).
Proof.
  intros H. destruct (init_recurrent_spec dims i d s) as (C & P & O & L).
  rewrite H in O.
  exists (fst (init_recurrent i dims d s)), tt. split.
  - rewrite <- O. apply surjective_pairing.
  - auto.
Qed.

Lemma construct_returns c :
  str_in (cfg_pooling c) ["sum"; "max"] = true ->
  is_empty (cfg_recurrent c) || rnn_ok (cfg_rnn c) = true ->
  exists m, construct c = (m, inr tt) /\ constructed c m.
Proof.
  intros Hp Hr.
  assert (returns (__init__ c) blank (fun m _ => constructed c m)) as (m & [] & E & H).
  2: { exists m. split; assumption. }
  unfold __init__.
  eapply returns_bind.
  { apply returns_modify with (Q := fun s' _ => s' = set_config c blank). reflexivity. }
  intros s0 u0 ->; cbv beta.
  eapply returns_bind.
  { apply returns_get with (Q := fun s' a => s' = set_config c blank /\ a = s'). auto. }
  intros s0 self [-> ->]; cbv beta.
  cbn [pooling set_config]. rewrite Hp. cbn [negb].
  eapply returns_bind.
  { unfold create_recurrent_layers.
    eapply returns_bind.
    { apply returns_modify with
        (Q := fun s' _ => s' = set_recurrent_layers_ [] (set_config c blank)).
      reflexivity. }
    intros s1 u1 ->; cbv beta.
    eapply returns_bind.
    { apply returns_get with
        (Q := fun s' a => s' = set_recurrent_layers_ [] (set_config c blank) /\ a = s').
      auto. }
    intros s1 a [-> ->]; cbv beta.
    apply init_recurrent_returns. exact Hr. }
  intros s1 u1 (C1 & P1 & L1); cbv beta in *.
  cbn [recurrent_layers_ set_recurrent_layers_ length Nat.add recurrent set_config
       _parameters blank] in P1, L1.
  change (config_view s1 = config_view (set_config c blank)) in C1.
  eapply returns_bind.
  { instantiate (1 := fun s' _ =>
      config_view s' = config_view s1 /\
      recurrent_layers_ s' = recurrent_layers_ s1 /\
      (cfg_weighted c = true ->
       lookup "alphas_" (_parameters s') =
       Some (Param (Ones (sum (cfg_recurrent c) * directions (cfg_bidirectional c)))))).
    cbn [weighted set_config recurrent bidirectional].
    destruct (cfg_weighted c).
    - apply returns_modify. repeat split. intros _.
      cbn [_parameters set_parameters]. apply lookup_assign.
    - apply returns_ret. repeat split. discriminate. }
  intros s2 u2 (C2 & R2 & A2); cbv beta in *.
  eapply returns_bind; [apply create_linear_layers_returns |].
  intros s3 d3 (C3 & R3 & P3); cbv beta in *.
  eapply returns_bind; [apply create_batch_norms_returns |].
  intros s4 u4 (C4 & R4 & P4); cbv beta in *.
  eapply returns_weaken; [apply create_attention_layers_returns |].
  intros s5 u5 ((C5 & R5 & P5) & A5); cbv beta in *.
  assert (config_view s5 = config_view (set_config c blank)) as C by congruence.
  repeat split.
  - exact C.
  - rewrite R5, R4, R3, R2. exact L1.
  - intros W. rewrite P5, P4, P3. auto.
  - intros E. apply A5.
    assert (attention s4 = attention s5) as ->; [| exact E].
    unfold config_view in C5. congruence.
Qed.

Lemma construct_raises_pooling c :
  str_in (cfg_pooling c) ["sum"; "max"] = false ->
  construct c = (set_config c blank, inl (ValueError msg_pooling)).
Proof.
  intros H. unfold construct, __init__, bind, modify, get.
  cbn [pooling set_config]. rewrite H. reflexivity.
Qed.

Lemma construct_raises_rnn c :
  str_in (cfg_pooling c) ["sum"; "max"] = true ->
  is_empty (cfg_recurrent c) || rnn_ok (cfg_rnn c) = false ->
  construct c =
  (set_recurrent_layers_ [] (set_config c blank), inl (ValueError msg_rnn)).
Proof.
  intros Hp Hr. apply orb_false_elim in Hr as [He Hr].
  destruct (cfg_recurrent c) as [| h rest] eqn:E; [discriminate |].
  unfold construct, __init__.
  unfold bind at 1 2. cbn [modify get]. cbn [pooling set_config]. rewrite Hp.
  cbn [negb]. apply bind_raises.
  unfold create_recurrent_layers, bind at 1 2. cbn [modify get].
  cbn [recurrent set_recurrent_layers_ set_config]. rewrite E.
  apply init_recurrent_invalid. exact Hr.
Qed.
(** * Facts about the forward pass *)

Lemma same_self_refl w : same_self w w.
Proof. reflexivity. Qed.

Lemma same_self_trans w1 w2 w3 :
  same_self w1 w2 -> same_self w2 w3 -> same_self w1 w3.
Proof. unfold same_self. congruence. Qed.

Lemma same_but_stats_refl a : same_but_stats a a.
Proof.
  split; [reflexivity |]. destruct (snd a) as [l | bn]; [reflexivity |].
  destruct bn; reflexivity.
Qed.

Lemma same_but_stats_trans a b c :
  same_but_stats a b -> same_but_stats b c -> same_but_stats a c.
Proof.
  intros [N1 H1] [N2 H2]. split; [congruence |].
  destruct (snd a) as [l | bn], (snd b) as [l' | bn'], (snd c) as [l'' | bn''];
    try contradiction; try congruence.
  rewrite H2, H1. reflexivity.
Qed.

Lemma Forall2_same_but_stats_refl d : Forall2 same_but_stats d d.
Proof. induction d; constructor; auto using same_but_stats_refl. Qed.

Lemma Forall2_same_but_stats_trans d1 :
  forall d2 d3,
    Forall2 same_but_stats d1 d2 -> Forall2 same_but_stats d2 d3 ->
    Forall2 same_but_stats d1 d3.
Proof.
  induction d1 as [| a d1 IH]; intros d2 d3 H12 H23;
    inversion H12; subst; inversion H23; subst; constructor.
  - eapply same_but_stats_trans; eauto.
  - eapply IH; eauto.
Qed.

Lemma unchanged_but_stats_refl m : unchanged_but_stats m m.
Proof. repeat split. apply Forall2_same_but_stats_refl. Qed.

Lemma unchanged_but_stats_trans m1 m2 m3 :
  unchanged_but_stats m1 m2 -> unchanged_but_stats m2 m3 ->
  unchanged_but_stats m1 m3.
Proof.
  intros (A1 & B1 & C1 & D1 & E1 & F1) (A2 & B2 & C2 & D2 & E2 & F2).
  repeat split; try congruence.
  eapply Forall2_same_but_stats_trans; eauto.
Qed.

Lemma frame_refl w : frame w w.
Proof. apply unchanged_but_stats_refl. Qed.

Lemma frame_trans w1 w2 w3 : frame w1 w2 -> frame w2 w3 -> frame w1 w3.
Proof. apply unchanged_but_stats_trans. Qed.

Lemma same_self_frame w w' : same_self w w' -> frame w w'.
Proof. unfold same_self, frame. intros ->. apply unchanged_but_stats_refl. Qed.

(** Replacing the statistics of a registered batch-normalization layer
    changes the registry in that entry's statistics only. *)
Lemma assign_stats name bn s d :
  lookup name d = Some (BatchNorm bn) ->
  Forall2 same_but_stats d
    (assign name (BatchNorm (set_running_stats s bn)) d).
Proof.
  induction d as [| [k w] rest IH]; simpl; [discriminate |].
  destruct (k =? name)%string.
  - intros [= ->]. constructor; [| apply Forall2_same_but_stats_refl].
    split; reflexivity.
  - intros H. constructor; [apply same_but_stats_refl | apply IH, H].
Qed.

Lemma set_parameters_same m : set_parameters (_parameters m) m = m.
Proof. destruct m; reflexivity. Qed.

(** ** The steps of [forward], one by one *)

Lemma torch_same_self e : keeps same_self (torch e).
Proof. intros w. reflexivity. Qed.

Lemma getself_same_self : keeps same_self getself.
Proof. intros w. reflexivity. Qed.

Ltac same_self_steps :=
  repeat lazymatch goal with
    | |- keeps _ (bind _ _) =>
        apply (keeps_bind same_self same_self_trans); [| intros ?]
    | |- keeps _ (torch _) => apply torch_same_self
    | |- keeps _ getself => apply getself_same_self
    | |- keeps _ (ret _) => apply (keeps_ret same_self same_self_refl)
    | |- keeps _ (raise _) => apply (keeps_raise same_self same_self_refl)
    | |- keeps _ (if _ then _ else _) => apply (keeps_if same_self)
    end.

Lemma transpose_same_self e d0 d1 : keeps same_self (transpose e d0 d1).
Proof. unfold transpose. same_self_steps. Qed.

Lemma call_linear_same_self l e : keeps same_self (call_linear l e).
Proof. unfold call_linear. same_self_steps. Qed.

Lemma call_rnn_same_self l e hidden : keeps same_self (call_rnn l e hidden).
Proof. unfold call_rnn. same_self_steps. Qed.

Lemma local_same_self name v : keeps same_self (local name v).
Proof. unfold local. destruct v; same_self_steps. Qed.

Lemma cat_same_self outputs dim : keeps same_self (cat outputs dim).
Proof. unfold cat. same_self_steps. Qed.

Lemma recurrent_loop_same_self rnn n b dev zipped :
  forall output outputs,
    keeps same_self (recurrent_loop rnn n b dev zipped output outputs).
Proof.
  induction zipped as [| [hidden_dim layer] rest IH]; intros output outputs;
    cbn [recurrent_loop]; same_self_steps;
    [apply call_rnn_same_self | apply IH].
Qed.

Lemma pad_all_same_self outputs : keeps same_self (pad_all outputs).
Proof.
  induction outputs as [| o rest IH]; cbn [pad_all]; same_self_steps. apply IH.
Qed.

Lemma unpack_outputs_same_self outputs : keeps same_self (unpack_outputs outputs).
Proof.
  unfold unpack_outputs.
  apply (keeps_bind same_self same_self_trans);
    [apply pad_all_same_self | intros ?; same_self_steps].
Qed.

Lemma linear_loop_same_self zipped :
  forall output, keeps same_self (linear_loop zipped output).
Proof.
  induction zipped as [| [hidden_dim layer] rest IH]; intros output;
    cbn [linear_loop]; same_self_steps; [apply call_linear_same_self | apply IH].
Qed.

Lemma attention_loop_same_self zipped :
  forall attn, keeps same_self (attention_loop zipped attn).
Proof.
  induction zipped as [| [layer hidden_dim] rest IH]; intros attn;
    cbn [attention_loop]; same_self_steps; [apply call_linear_same_self | apply IH].
Qed.

Lemma getattr_alphas__same_self : keeps same_self getattr_alphas_.
Proof.
  intros w. unfold getattr_alphas_, bind, getself.
  destruct (lookup "alphas_" (_parameters (self_ w))); reflexivity.
Qed.

(** Line 195, [self.alphas_ = self.alphas_.to(device)], leaves the module
    as it was: the value assigned is the registered parameter itself, or
    the assignment is refused. *)
Lemma move_alphas__same_self device :
  keeps same_self
    (alphas_ <- getattr_alphas_ ;;
     alphas_ <- torch (to alphas_ device) ;;
     setattr_alphas_ alphas_).
Proof.
  intros w. unfold getattr_alphas_, bind, getself, torch, setattr_alphas_, setself.
  cbn [self_ tape fst snd].
  destruct (lookup "alphas_" (_parameters (self_ w))) as [a |] eqn:E;
    [| reflexivity].
  cbn [ret]. cbn [self_ tape fst snd].
  unfold to. destruct (device_eqb (device_of a) device); cbn [is_parameter].
  - destruct (is_parameter a); [| reflexivity].
    unfold same_self. cbn [fst self_].
    rewrite (assign_lookup _ _ _ E). apply set_parameters_same.
  - reflexivity.
Qed.

Lemma call_batch_norm_frame name x : keeps frame (call_batch_norm name x).
Proof.
  intros w. unfold call_batch_norm, bind, getself.
  destruct (lookup name (_modules (self_ w))) as [[l | bn] |] eqn:E.
  - apply same_self_frame, call_linear_same_self.
  - unfold torch. cbn [self_ tape fst snd].
    destruct (training bn); unfold setself, ret; cbn [fst snd self_].
    + unfold frame. cbn [self_]. repeat split.
      cbn [_modules set_modules]. apply assign_stats, E.
    + apply same_self_frame. reflexivity.
  - apply frame_refl.
Qed.

Lemma same_self_keeps_frame {A} (c : M World A) :
  keeps same_self c -> keeps frame c.
Proof. apply keeps_weaken. exact same_self_frame. Qed.

Ltac frame_steps :=
  repeat lazymatch goal with
    | |- keeps _ (bind _ _) =>
        apply (keeps_bind frame frame_trans); [| intros ?]
    | |- keeps _ (ret _) => apply (keeps_ret frame frame_refl)
    | |- keeps _ (raise _) => apply (keeps_raise frame frame_refl)
    | |- keeps _ (if _ then _ else _) => apply (keeps_if frame)
    | |- keeps _ (call_batch_norm _ _) => apply call_batch_norm_frame
    | |- keeps _ (torch _) => apply same_self_keeps_frame, torch_same_self
    | |- keeps _ getself => apply same_self_keeps_frame, getself_same_self
    | |- keeps _ (local _ _) => apply same_self_keeps_frame, local_same_self
    | |- keeps _ (transpose _ _ _) =>
        apply same_self_keeps_frame, transpose_same_self
    | |- keeps _ (cat _ _) => apply same_self_keeps_frame, cat_same_self
    | |- keeps _ (recurrent_loop _ _ _ _ _ _ _) =>
        apply same_self_keeps_frame, recurrent_loop_same_self
    | |- keeps _ (unpack_outputs _) =>
        apply same_self_keeps_frame, unpack_outputs_same_self
    | |- keeps _ (linear_loop _ _) =>
        apply same_self_keeps_frame, linear_loop_same_self
    | |- keeps _ (attention_loop _ _) =>
        apply same_self_keeps_frame, attention_loop_same_self
    | |- keeps _ getattr_alphas_ =>
        apply same_self_keeps_frame, getattr_alphas__same_self
    end.

Lemma embed_frame sequence : keeps frame (embed sequence).
Proof.
  unfold embed. cbv zeta.
  apply (keeps_bind frame frame_trans); [frame_steps | intros self].
  apply (keeps_if frame); [frame_steps |].
  apply (keeps_bind frame frame_trans); [frame_steps | intros sequence'].
  apply (keeps_bind frame frame_trans).
  { apply (keeps_if frame); [| frame_steps].
    apply same_self_keeps_frame, move_alphas__same_self. }
  intros _. frame_steps.
Qed.

Lemma normalize_output_frame output : keeps frame (normalize_output output).
Proof. unfold normalize_output. frame_steps. Qed.

Lemma forward_frame sequence : keeps frame (forward sequence).
Proof.
  unfold forward. apply (keeps_bind frame frame_trans).
  - apply embed_frame.
  - intros output. apply normalize_output_frame.
Qed.
Lemma raises_now {S A B} (c : M S A) (k : A -> M S B) s e :
  raises c s e -> raises (bind c k) s e.
Proof. intros [s' H]. exists s'. apply bind_raises, H. Qed.

Lemma raises_later {S A B} (c : M S A) (k : A -> M S B) s e Q :
  returns c s Q -> (forall s' a, Q s' a -> raises (k a) s' e) ->
  raises (bind c k) s e.
Proof.
  intros (s' & a & Hc & HQ) Hk. destruct (Hk s' a HQ) as [s'' H].
  exists s''. rewrite (bind_returns _ _ _ _ _ Hc). exact H.
Qed.

Lemma raises_raise {S A} (s : S) e : raises (@raise S A e) s e.
Proof. exists s. reflexivity. Qed.

Lemma torch_returns e w :
  returns (torch e) w
    (fun w' r => w' = {| self_ := self_ w; tape := tape w ++ [e] |} /\ r = e).
Proof. eexists _, e. split; [reflexivity | split; reflexivity]. Qed.

Lemma getself_returns w :
  returns getself w (fun w' r => w' = w /\ r = self_ w).
Proof. exists w, (self_ w). split; [reflexivity | split; reflexivity]. Qed.

(** A recurrent layer takes an input that lives on the cpu. *)
Lemma call_rnn_returns l e hidden w :
  device_of e = cpu ->
  returns (call_rnn l e hidden) w
    (fun w' r => w' = {| self_ := self_ w; tape := tape w ++ [Rnn l e hidden] |}
                 /\ r = Rnn l e hidden).
Proof.
  intros H. unfold call_rnn. rewrite H. cbn [device_eqb]. apply torch_returns.
Qed.

Lemma recurrent_loop_returns rnn n b dev zipped :
  rnn_ok rnn = true ->
  forall output outputs w,
    device_of output = cpu ->
    returns (recurrent_loop rnn n b dev zipped output outputs) w
      (fun w' r => same_self w w' /\
                   length (snd r) = (length outputs + length zipped)%nat).
Proof.
  intros Hr.
  induction zipped as [| [hidden_dim layer] rest IH];
    intros output outputs w Hdev; cbn [recurrent_loop].
  - apply returns_ret. split; [reflexivity | simpl; lia].
  - eapply returns_bind.
    { instantiate (1 := fun w' _ => same_self w w').
      destruct (rnn_ok_cases _ Hr) as [-> | ->]; cbn [String.eqb Ascii.eqb Bool.eqb].
      - eapply returns_bind; [apply torch_returns |].
        intros w1 h [-> ->]. eapply returns_bind; [apply torch_returns |].
        intros w2 c [-> ->]. apply returns_ret. reflexivity.
      - eapply returns_bind; [apply torch_returns |].
        intros w1 h [-> ->]. apply returns_ret. reflexivity. }
    intros w1 hidden H1; cbv beta in *.
    eapply returns_bind; [apply call_rnn_returns, Hdev |].
    intros w2 o [-> ->]. eapply returns_weaken; [apply IH, Hdev |].
    intros w3 r [H3 L3]; cbv beta in *. split.
    + unfold same_self in *. cbn [self_] in H3. congruence.
    + rewrite L3, length_app. simpl. lia.
Qed.

Lemma pad_all_returns outputs :
  forall w, returns (pad_all outputs) w
              (fun w' r => same_self w w' /\ length r = length outputs).
Proof.
  induction outputs as [| o rest IH]; intros w; cbn [pad_all].
  - apply returns_ret. split; reflexivity.
  - eapply returns_bind; [apply torch_returns |].
    intros w1 p [-> ->]. eapply returns_bind; [apply IH |].
    intros w2 ps [H2 L2]; cbv beta in *. apply returns_ret. split.
    + exact H2.
    + simpl. congruence.
Qed.

Lemma linear_loop_returns zipped :
  forall output w,
    is_packed output = false ->
    returns (linear_loop zipped output) w (fun w' _ => same_self w w').
Proof.
  induction zipped as [| [hidden_dim layer] rest IH]; intros output w Hp;
    cbn [linear_loop].
  - apply returns_ret. reflexivity.
  - unfold call_linear. rewrite Hp.
    eapply returns_bind; [apply torch_returns |].
    intros w1 o [-> ->]. eapply returns_bind; [apply torch_returns |].
    intros w2 t [-> ->]. eapply returns_weaken; [apply IH; reflexivity |].
    intros w3 r H3. exact H3.
Qed.

Lemma getattr_alphas__returns w a :
  lookup "alphas_" (_parameters (self_ w)) = Some a ->
  returns getattr_alphas_ w (fun w' r => w' = w /\ r = a).
Proof.
  intros H. unfold getattr_alphas_.
  eapply returns_bind; [apply getself_returns |].
  intros w1 self [-> ->]. rewrite H. apply returns_ret. auto.
Qed.

Lemma construct_inv c m :
  construct c = (m, inr tt) ->
  constructed c m /\
  str_in (cfg_pooling c) ["sum"; "max"] = true /\
  is_empty (cfg_recurrent c) || rnn_ok (cfg_rnn c) = true.
Proof.
  intros H.
  destruct (str_in (cfg_pooling c) ["sum"; "max"]) eqn:Hp.
  - destruct (is_empty (cfg_recurrent c) || rnn_ok (cfg_rnn c)) eqn:Hr.
    + destruct (construct_returns c Hp Hr) as (m' & E & C).
      rewrite E in H. injection H as <-. auto.
    + rewrite (construct_raises_rnn c Hp Hr) in H. discriminate.
  - rewrite (construct_raises_pooling c Hp) in H. discriminate.
Qed.

Lemma constructed_config c m :
  constructed c m ->
  n_features m = cfg_n_features c /\
  rnn m = cfg_rnn c /\
  recurrent m = cfg_recurrent c /\
  pooling m = cfg_pooling c /\
  instance_normalize m = cfg_instance_normalize c /\
  normalize m = cfg_normalize c /\
  weighted m = cfg_weighted c /\
  bidirectional m = cfg_bidirectional c /\
  linear m = match cfg_linear c with None => [] | Some l => l end /\
  attention m = match cfg_attention c with None => [] | Some l => l end.
Proof.
  intros (C & _). unfold config_view in C. cbn [set_config n_features rnn
    recurrent bidirectional pooling instance_normalize batch_normalize
    normalize weighted linear attention num_directions_] in C.
  injection C; intros; repeat split; assumption.
Qed.

Lemma combine_length_pos {A B} (l : list A) (l' : list B) :
  l <> [] -> length l' = length l -> (0 < length (combine l l'))%nat.
Proof.
  destruct l, l'; simpl; intros H E; try congruence; try lia.
Qed.

(** On a packed sequence of the right feature dimension, a module built
    without instance normalization and without attention, with at least
    one recurrent layer and its weights (if any) on the device of the
    input, reaches the pooling step; with ["max"] pooling it stops
    there. *)
Lemma embed_packed_max c m p w :
  construct c = (m, inr tt) ->
  self_ w = m ->
  cfg_pooling c = "max" ->
  data_size1 p = cfg_n_features c ->
  cfg_instance_normalize c = false ->
  cfg_recurrent c <> [] ->
  match cfg_attention c with None => [] | Some l => l end = [] ->
  data_device p = cpu ->
  raises (embed (Packed p)) w (NotImplementedError msg_max).
Proof.
  intros Hc Hw Hpool Hfeat Hinst Hrec Hatt Hdev.
  destruct (construct_inv c m Hc) as (Hm & Hp & Hr).
  destruct (constructed_config c m Hm)
    as (En & Ernn & Erec & Epool & Einst & Enorm & Ewei & Ebi & Elin & Eatt).
  destruct Hm as (_ & Hlen & Halpha & Hal).
  assert (rnn_ok (rnn m) = true) as Hrnn.
  { rewrite Ernn. destruct (cfg_recurrent c); [congruence | exact Hr]. }
  unfold embed. cbv zeta.
  cbn [isinstance_PackedSequence input_batch_size input_n_features input_device].
  eapply raises_later; [apply getself_returns |].
  intros w0 self [-> ->]. rewrite Hw.
  rewrite En, Hfeat, Z.eqb_refl. cbn [negb].
  rewrite Einst, Hinst.
  eapply raises_later; [apply returns_ret with (Q := fun w' r => w' = w /\ r = Arg (Packed p)); auto |].
  intros w0 sequence [-> ->].
  eapply raises_later.
  { instantiate (1 := fun w' _ => self_ w' = m).
    rewrite Ewei. destruct (cfg_weighted c) eqn:W.
    - specialize (Halpha eq_refl).
      eapply returns_bind.
      { apply getattr_alphas__returns. rewrite Hw. exact Halpha. }
      intros w1 a [-> ->]. rewrite Hdev.
      eapply returns_bind; [apply torch_returns |].
      intros w1 a [-> ->].
      unfold setattr_alphas_, to. cbn [device_of device_eqb is_parameter].
      eexists _, tt. split; [reflexivity |].
      cbn [self_]. rewrite Hw. rewrite (assign_lookup _ _ _ Halpha).
      apply set_parameters_same.
    - apply returns_ret. exact Hw. }
  intros w1 u1 H1; cbv beta in *.
  eapply raises_later;
    [apply recurrent_loop_returns; [exact Hrnn | exact Hdev] |].
  intros w2 r [H2 L2]; cbv beta in *.
  assert (self_ w2 = m) as Hw2 by (unfold same_self in H2; congruence).
  assert (0 < length (snd r))%nat as Lr.
  { rewrite L2. simpl. apply combine_length_pos.
    - rewrite Erec. exact Hrec.
    - rewrite Erec. exact Hlen. }
  eapply raises_later.
  { instantiate (1 := fun w' outs => self_ w' = m /\ outs <> []).
    unfold unpack_outputs.
    eapply returns_bind; [apply pad_all_returns |].
    intros w3 padded [H3 L3]; cbv beta in *.
    destruct padded as [| p0 ps]; [simpl in L3; lia |].
    apply returns_ret. split; [| discriminate].
    unfold same_self in H3. congruence. }
  intros w3 outputs [Hw3 Hne]; cbv beta in *.
  eapply raises_later.
  { instantiate (1 := fun w' o => self_ w' = m /\ is_packed o = false).
    unfold cat. destruct outputs as [| o os]; [congruence |]. cbn [is_empty].
    eapply returns_weaken; [apply torch_returns |].
    intros w4 o' [-> ->]. split; [exact Hw3 | reflexivity]. }
  intros w4 output [Hw4 Hnp]; cbv beta in *.
  eapply raises_later.
  { instantiate (1 := fun w' o => self_ w' = m /\ is_packed o = false).
    rewrite Ewei. destruct (cfg_weighted c) eqn:W.
    - eapply returns_bind.
      { apply getattr_alphas__returns. rewrite Hw4. exact (Halpha eq_refl). }
      intros w5 a [-> ->].
      eapply returns_weaken; [apply torch_returns |].
      intros w5 o' [-> ->]. split; [exact Hw4 | reflexivity].
    - apply returns_ret. auto. }
  intros w5 output' [Hw5 Hnp']; cbv beta in *.
  eapply raises_later; [apply linear_loop_returns, Hnp' |].
  intros w6 output'' H6; cbv beta in *.
  rewrite (Hal (eq_trans Eatt Hatt)). cbn [is_empty negb].
  eapply raises_later; [apply returns_ret with (Q := fun _ _ => True); exact I |].
  intros w7 o7 _.
  apply raises_now.
  rewrite Epool, Hpool. cbn [String.eqb Ascii.eqb Bool.eqb].
  apply raises_raise.
Qed.

(** ** Instance normalization and the embedding *)

























(** * The properties *)

(** ** Instance normalization (C1) *)

(** C1, evaluated on the code.  The claim is that, with instance
    normalization enabled, the normalized copy of the input feeds the
    recurrent layers and the original input feeds the attention layers.
    On [ClopiNet(2, rnn='GRU', recurrent=[3], instance_normalize=True,
    batch_normalize=False, attention=[1])] and a dense input [x] the code
    does the opposite: [output = sequence] is taken before [sequence] is
    re-bound to its normalized copy, so the recurrent layer is called on
    [x] itself and the attention layer on the normalized copy. *)
Theorem instance_normalize_reaches_attention_only :
  let x := Arg (x_dense cpu) in
  let normalized := Transpose (InstanceNorm (Transpose x 1 2)) 1 2 in
  let recurrent_0 := Rnn (GRU 2 3 false true) x [Zeros [1; 1; 3] cpu] in
  let attention_0 := Apply (Linear 2 1 true) normalized in
  exists m w,
    construct small_instance_normalized = (m, inr tt) /\
    run_forward m (x_dense cpu) =
      (w, inr (SumDim (Mul (Cat [recurrent_0] 2)
                           (Softmax (Tanh attention_0) 1)) 1)) /\
    tape w =
      [Transpose x 1 2; InstanceNorm (Transpose x 1 2); normalized;
       Zeros [1; 1; 3] cpu; recurrent_0; Cat [recurrent_0] 2;
       attention_0; Tanh attention_0; Softmax (Tanh attention_0) 1;
       Mul (Cat [recurrent_0] 2) (Softmax (Tanh attention_0) 1);
       SumDim (Mul (Cat [recurrent_0] 2) (Softmax (Tanh attention_0) 1)) 1].
Proof.
  cbv zeta.
  exists (fst (construct small_instance_normalized)).
  exists (fst (run_forward (fst (construct small_instance_normalized))
                 (x_dense cpu))).
  split; [| split]; vm_compute; reflexivity.
Qed.

(** Without attention layers the normalized copy is computed and never
    used (in general, [forward_ignores_instance_normalize]): the embedding
    is the one computed with instance normalization switched off. *)
Example instance_normalize_without_attention :
  snd (run_forward (fst (construct small_max_instance_normalized)) (x_dense cpu)) =
  snd (run_forward (fst (construct small_max)) (x_dense cpu)).
Proof. reflexivity. Qed.

(** ** Output dimension (C2) *)

(** C2.  For every configuration that constructs, [output_dim] is the
    last element of the linear-size list when that list is not empty, and
    otherwise the sum of the recurrent hidden sizes, times 2 if
    bidirectional and times 1 if not. *)
Theorem output_dim_spec c m :
  construct c = (m, inr tt) ->
  (forall front x, cfg_linear c = Some (front ++ [x])%list -> output_dim m = x) /\
  (cfg_linear c = None \/ cfg_linear c = Some [] ->
   output_dim m =
   sum (cfg_recurrent c) * (if cfg_bidirectional c then 2 else 1)).
Proof.
  intros Hc. destruct (construct_inv c m Hc) as (Hm & _).
  destruct (constructed_config c m Hm)
    as (_ & _ & Erec & _ & _ & _ & _ & Ebi & Elin & _).
  unfold output_dim. rewrite Elin, Erec, Ebi. split.
  - intros front x ->. rewrite last_last.
    destruct front; reflexivity.
  - intros [-> | ->]; reflexivity.
Qed.

Lemma output_dim_spec_witness :
  output_dim (fst (construct small_cube)) = 5 /\
  output_dim (fst (construct (defaults 40))) = 192.
Proof.
  split.
  - refine (proj1 (output_dim_spec small_cube (fst (construct small_cube)) _)
              [] 5 _); vm_compute; reflexivity.
  - refine (proj2 (output_dim_spec (defaults 40)
                     (fst (construct (defaults 40))) _) _).
    + vm_compute; reflexivity.
    + left. reflexivity.
Defined.

(** ** Validation of the recurrent cell kind (C3) *)

(** C3 as stated fails: with an empty recurrent-size list the loop that
    holds the check is never entered, and [ClopiNet(2, rnn='RNN',
    recurrent=[])] constructs. *)
Lemma invalid_rnn_accepted_without_recurrent_layers :
  ~ (forall c,
       cfg_rnn c <> "LSTM" -> cfg_rnn c <> "GRU" ->
       exists m msg, construct c = (m, inl (ValueError msg))).
Proof.
  intros H.
  destruct (H small_no_recurrent) as (m & msg & E);
    [discriminate | discriminate |].
  vm_compute in E. discriminate.
Qed.

(** C3, amended.  For every configuration whose recurrent cell kind is
    neither ['LSTM'] nor ['GRU'] and whose recurrent-size list is not
    empty, construction fails with [ValueError], whatever the other
    values: the error about [rnn] when the pooling mode is valid, raised
    before any layer is registered, and the error about [pooling]
    otherwise. *)
Theorem invalid_rnn_raises c :
  cfg_rnn c <> "LSTM" -> cfg_rnn c <> "GRU" -> cfg_recurrent c <> [] ->
  exists m,
    construct c =
      (m, inl (ValueError (if str_in (cfg_pooling c) ["sum"; "max"]
                           then msg_rnn else msg_pooling))) /\
    _parameters m = [] /\ _modules m = [].
Proof.
  intros HL HG Hrec.
  assert (is_empty (cfg_recurrent c) || rnn_ok (cfg_rnn c) = false) as Hr.
  { destruct (cfg_recurrent c); [congruence |]. cbn [is_empty orb].
    unfold rnn_ok. apply orb_false_intro; apply String.eqb_neq; assumption. }
  destruct (str_in (cfg_pooling c) ["sum"; "max"]) eqn:Hp.
  - eexists. split; [apply construct_raises_rnn; assumption |].
    split; reflexivity.
  - eexists. split; [apply construct_raises_pooling; assumption |].
    split; reflexivity.
Qed.

Lemma invalid_rnn_raises_witness :
  exists m,
    construct small_rnn =
      (m, inl (ValueError (if str_in (cfg_pooling small_rnn) ["sum"; "max"]
                           then msg_rnn else msg_pooling))) /\
    _parameters m = [] /\ _modules m = [].
Proof.
  apply (invalid_rnn_raises small_rnn); vm_compute; discriminate.
Defined.

(** ** What a forward pass changes (C4) *)

(** C4.  Whatever its argument, and whether it returns or raises, a
    forward pass leaves every attribute of the module as it was, except
    for the running statistics of the batch-normalization layers.  In
    particular [alphas_] is unchanged: line 195 assigns
    [self.alphas_.to(device)], which is the registered parameter itself
    when it is on the device already, and otherwise a plain tensor that
    the module refuses to store under a parameter's name. *)
Theorem forward_changes_statistics_only sequence w :
  unchanged_but_stats (self_ w) (self_ (fst (forward sequence w))).
Proof. exact (forward_frame sequence w). Qed.

(** In training mode the statistics do change. *)
Example forward_updates_statistics :
  let m := fst (construct (defaults 2)) in
  lookup "batch_norm_" (_modules (self_ (fst (run_forward m (x_dense cpu))))) <>
  lookup "batch_norm_" (_modules m).
Proof. vm_compute. discriminate. Qed.

(** With weights on the cpu and the input on another device, the
    assignment of line 195 is refused and [alphas_] stays as it was. *)
Example forward_alphas_on_another_device :
  let m := fst (construct small_max_weighted) in
  snd (run_forward m (x_dense (cuda 0))) =
    inl (TypeError
      "cannot assign 'torch.cuda.FloatTensor' as parameter 'alphas_' (torch.nn.Parameter or None expected)") /\
  _parameters (self_ (fst (run_forward m (x_dense (cuda 0))))) =
    [("alphas_", Param (Ones 3))].
Proof. split; reflexivity. Qed.

(** ** Feature dimension check (C5) *)

(** C5.  On a dense or a packed input, of any batch size and length,
    whose feature dimension differs from the configured one, a forward
    pass raises the [ValueError] about the feature dimension before
    anything else happens: the module and the tape of library calls are
    as they were, and no value is returned. *)
Theorem wrong_feature_dimension sequence w :
  input_n_features sequence <> n_features (self_ w) ->
  forward sequence w =
    (w, inl (ValueError
               (msg_wrong_dimension (input_n_features sequence)
                                    (n_features (self_ w))))).
Proof.
  intros H. apply Z.eqb_neq in H.
  unfold forward, embed. cbv zeta. unfold bind, getself. rewrite H.
  reflexivity.
Qed.

Lemma wrong_feature_dimension_witness :
  run_forward (fst (construct (defaults 40))) (x_dense cpu) =
    ({| self_ := fst (construct (defaults 40)); tape := [] |},
     inl (ValueError "Wrong feature dimension. Found 2, should be 40")) /\
  run_forward (fst (construct (defaults 40))) (x_packed 39 cpu) =
    ({| self_ := fst (construct (defaults 40)); tape := [] |},
     inl (ValueError "Wrong feature dimension. Found 39, should be 40")).
Proof.
  split.
  - apply (wrong_feature_dimension (x_dense cpu)
             {| self_ := fst (construct (defaults 40)); tape := [] |}).
    vm_compute. discriminate.
  - apply (wrong_feature_dimension (x_packed 39 cpu)
             {| self_ := fst (construct (defaults 40)); tape := [] |}).
    vm_compute. discriminate.
Defined.

(** ** Packed sequences with attention or max pooling (C6) *)

(** X13.  The half of the rule that the code implements.  On a
    well-formed packed input that lives on the cpu, with the layers, and
    whose feature dimension is the configured one, a module with ['max']
    pooling, no attention layers, no instance normalization and at least
    one recurrent layer raises the [NotImplementedError] about ["max"]
    pooling. *)
Theorem packed_max_pooling_not_implemented c m p :
  construct c = (m, inr tt) ->
  cfg_pooling c = "max" ->
  data_size1 p = cfg_n_features c ->
  cfg_instance_normalize c = false ->
  cfg_recurrent c <> [] ->
  cfg_attention c = None \/ cfg_attention c = Some [] ->
  data_device p = cpu ->
  well_packed p = true ->
  exists w, run_forward m (Packed p) = (w, inl (NotImplementedError msg_max)).
Proof.
  intros Hc Hpool Hfeat Hinst Hrec Hatt Hdev _.
  unfold run_forward, forward.
  apply raises_now.
  apply (embed_packed_max c m p); auto.
  destruct Hatt as [-> | ->]; reflexivity.
Qed.

Lemma packed_max_pooling_not_implemented_witness :
  exists w,
    run_forward (fst (construct small_max_weighted)) (x_packed 2 cpu) =
    (w, inl (NotImplementedError msg_max)).
Proof.
  apply (packed_max_pooling_not_implemented small_max_weighted
           (fst (construct small_max_weighted))
           {| data_name := "x"; data_size0 := 5; data_size1 := 2;
              batch_sizes_0 := 2; batch_sizes_rest := [2; 1];
              data_device := cpu |}).
  - vm_compute. reflexivity.
  - reflexivity.
  - reflexivity.
  - reflexivity.
  - vm_compute. discriminate.
  - left. reflexivity.
  - reflexivity.
  - reflexivity.
Defined.

(** Why each condition is there.  With attention layers the first of
    them is applied to the packed sequence before the check of line 249
    is reached, and a linear layer does not take a packed sequence. *)
Example packed_attention_raises_in_the_layer :
  snd (run_forward (fst (construct small_attention)) (x_packed 2 cpu)) =
  inl (AttributeError "'PackedSequence' object has no attribute 'dim'").
Proof. reflexivity. Qed.

(** Instance normalization transposes the argument, which a packed
    sequence does not support. *)
Example packed_instance_normalize_raises :
  snd (run_forward (fst (construct small_max_instance_normalized))
         (x_packed 2 cpu)) =
  inl (AttributeError "'PackedSequence' object has no attribute 'transpose'").
Proof. reflexivity. Qed.

(** Without recurrent layers there is nothing to unpack. *)
Example packed_no_recurrent_raises :
  snd (run_forward (fst (construct small_max_no_recurrent)) (x_packed 2 cpu)) =
  inl (ValueError "not enough values to unpack (expected 2, got 0)").
Proof. reflexivity. Qed.

(** Weights on another device than the input cannot be re-assigned. *)
Example packed_weighted_other_device_raises :
  snd (run_forward (fst (construct small_max_weighted)) (x_packed 2 (cuda 0))) =
  inl (TypeError
    "cannot assign 'torch.cuda.FloatTensor' as parameter 'alphas_' (torch.nn.Parameter or None expected)").
Proof. reflexivity. Qed.

(** The recurrent layers are on the cpu, where construction put them,
    and refuse an input that lives elsewhere. *)
Example packed_other_device_raises :
  exists msg,
    snd (run_forward (fst (construct small_max)) (x_packed 2 (cuda 0))) =
    inl (RuntimeError msg).
Proof. eexists. reflexivity. Qed.

(** ** Validation of the pooling mode (C7) *)

(** C7.  For every configuration whose pooling mode is neither ['sum']
    nor ['max'], construction raises the [ValueError] about [pooling]
    right after the configuration attributes are stored: no parameter
    and no sub-layer has been registered, and the lists of layers are
    empty. *)
Theorem invalid_pooling_raises c :
  cfg_pooling c <> "sum" -> cfg_pooling c <> "max" ->
  construct c = (set_config c blank, inl (ValueError msg_pooling)) /\
  _parameters (fst (construct c)) = [] /\
  _modules (fst (construct c)) = [] /\
  recurrent_layers_ (fst (construct c)) = [] /\
  linear_layers_ (fst (construct c)) = [] /\
  attention_layers_ (fst (construct c)) = [].
Proof.
  intros Hs Hm.
  assert (str_in (cfg_pooling c) ["sum"; "max"] = false) as H.
  { unfold str_in. cbn [existsb].
    apply String.eqb_neq in Hs, Hm. rewrite Hs, Hm. reflexivity. }
  rewrite (construct_raises_pooling c H). repeat split.
Qed.

Lemma invalid_pooling_raises_witness :
  construct small_avg = (set_config small_avg blank, inl (ValueError msg_pooling)) /\
  _parameters (fst (construct small_avg)) = [] /\
  _modules (fst (construct small_avg)) = [] /\
  recurrent_layers_ (fst (construct small_avg)) = [] /\
  linear_layers_ (fst (construct small_avg)) = [] /\
  attention_layers_ (fst (construct small_avg)) = [].
Proof.
  apply (invalid_pooling_raises small_avg); vm_compute; discriminate.
Defined.

(** ** Unrecognized output normalization (C10) *)

Lemma normalize_output_unrecognized output w :
  truthy (normalize (self_ w)) = true ->
  py_in_strs (normalize (self_ w)) ["sphere"; "ball"; "ring"] = false ->
  normalize_output output w =
  ({| self_ := self_ w; tape := tape w ++ [Norm output 2 1 true] |}, inr output).
Proof.
  intros Ht Hn. unfold py_in_strs in Hn. cbn [existsb] in Hn.
  apply orb_false_elim in Hn as [Hs Hn].
  apply orb_false_elim in Hn as [Hb Hn].
  apply orb_false_elim in Hn as [Hr _].
  unfold normalize_output, bind, getself, torch.
  rewrite Ht. cbn [ret self_ tape fst snd]. rewrite Hs, Hb, Hr. reflexivity.
Qed.

(** C10.  A truthy [normalize] outside ['sphere'], ['ball'] and ['ring']
    is never validated: construction ends as it does with
    [normalize=False], and a forward pass computes the norm of the
    embedding and returns the embedding as pooling and the optional
    batch normalization left it. *)
Theorem unrecognized_normalize c :
  truthy (cfg_normalize c) = true ->
  py_in_strs (cfg_normalize c) ["sphere"; "ball"; "ring"] = false ->
  snd (construct c) = snd (construct (with_normalize (PyBool false) c)) /\
  forall m sequence w,
    construct c = (m, inr tt) ->
    self_ w = m ->
    forward sequence w =
    match embed sequence w with
    | (w', inr output) =>
        ({| self_ := self_ w'; tape := tape w' ++ [Norm output 2 1 true] |},
         inr output)
    | (w', inl e) => (w', inl e)
    end.
Proof.
  intros Ht Hn. split.
  - destruct (str_in (cfg_pooling c) ["sum"; "max"]) eqn:Hp.
    + destruct (is_empty (cfg_recurrent c) || rnn_ok (cfg_rnn c)) eqn:Hr.
      * destruct (construct_returns c Hp Hr) as (m & -> & _).
        destruct (construct_returns (with_normalize (PyBool false) c) Hp Hr)
          as (m' & -> & _).
        reflexivity.
      * rewrite (construct_raises_rnn c Hp Hr).
        rewrite (construct_raises_rnn (with_normalize (PyBool false) c) Hp Hr).
        reflexivity.
    + rewrite (construct_raises_pooling c Hp).
      rewrite (construct_raises_pooling (with_normalize (PyBool false) c) Hp).
      reflexivity.
  - intros m sequence w Hc Hw.
    destruct (construct_inv c m Hc) as (Hm & _).
    destruct (constructed_config c m Hm)
      as (_ & _ & _ & _ & _ & Enorm & _).
    pose proof (embed_frame sequence w) as (Hv & _).
    unfold forward, bind.
    destruct (embed sequence w) as [w' [e | output]]; [reflexivity |].
    cbn [fst] in Hv.
    assert (normalize (self_ w') = cfg_normalize c) as E.
    { unfold config_view in Hv. rewrite <- Enorm, <- Hw. congruence. }
    apply normalize_output_unrecognized; rewrite E; assumption.
Qed.

Lemma unrecognized_normalize_witness :
  snd (construct small_cube) =
    snd (construct (with_normalize (PyBool false) small_cube)) /\
  forall m sequence w,
    construct small_cube = (m, inr tt) ->
    self_ w = m ->
    forward sequence w =
    match embed sequence w with
    | (w', inr output) =>
        ({| self_ := self_ w'; tape := tape w' ++ [Norm output 2 1 true] |},
         inr output)
    | (w', inl e) => (w', inl e)
    end.
Proof.
  apply (unrecognized_normalize small_cube); reflexivity.
Defined.

(** On a concrete input: the norm is the last call on the tape, and the
    value returned is the batch-normalized embedding. *)
Example unrecognized_normalize_run :
  let x := Arg (x_dense cpu) in
  let recurrent_0 := Rnn (GRU 2 3 false true) x [Zeros [1; 1; 3] cpu] in
  let pooled :=
    SumDim (Tanh (Apply (Linear 3 5 true) (Cat [recurrent_0] 2))) 1 in
  let embedding := BatchNormOut (StatsInit 5) true pooled in
  construct small_cube = (fst (construct small_cube), inr tt) /\
  snd (run_forward (fst (construct small_cube)) (x_dense cpu)) = inr embedding /\
  last (tape (fst (run_forward (fst (construct small_cube)) (x_dense cpu)))) x =
    Norm embedding 2 1 true.
Proof. cbv zeta. split; [| split]; vm_compute; reflexivity. Qed.

(** * Construction in closed form *)

Lemma register_all_app prefix layers1 :
  forall i layers2 modules,
    register_all prefix i (layers1 ++ layers2) modules =
    register_all prefix (i + Z.of_nat (length layers1)) layers2
      (register_all prefix i layers1 modules).
Proof.
  induction layers1 as [| l rest IH]; intros i layers2 modules.
  - cbn [app register_all length Z.of_nat]. rewrite Z.add_0_r. reflexivity.
  - cbn [app register_all length]. rewrite IH. f_equal. lia.
Qed.

Lemma last_cons {A} (rest : list A) :
  forall h d, last (h :: rest) d = last rest h.
Proof.
  induction rest as [| a r IH]; intros h d; [reflexivity |].
  change (last (h :: a :: r) d) with (last (a :: r) d).
  rewrite (IH a d), (IH a h). reflexivity.
Qed.

Lemma linear_chain_length input_dim dims :
  length (linear_chain input_dim dims) = length dims.
Proof.
  revert input_dim. induction dims; intros; simpl; auto.
Qed.

Lemma recurrent_chain_length rnn bi input_dim dims :
  length (recurrent_chain rnn bi input_dim dims) = length dims.
Proof.
  revert input_dim. induction dims; intros; simpl; auto.
Qed.

Lemma init_recurrent_closed dims :
  forall i d s,
    rnn_ok (rnn s) = true ->
    init_recurrent i dims d s =
    (set_recurrent_layers_
       (recurrent_layers_ s ++ recurrent_chain (rnn s) (bidirectional s) d dims)
       (set_modules
          (register_all "recurrent_" i
             (recurrent_chain (rnn s) (bidirectional s) d dims) (_modules s))
          s),
     inr tt).
Proof.
  induction dims as [| hidden_dim rest IH]; intros i d s Hr.
  - cbn [init_recurrent recurrent_chain register_all]. rewrite app_nil_r.
    destruct s; reflexivity.
  - destruct (rnn_ok_cases _ Hr) as [E | E].
    + rewrite init_recurrent_LSTM by exact E.
      rewrite IH by exact Hr. unfold with_recurrent.
      destruct s; cbn in E; subst; cbn.
      rewrite <- app_assoc. reflexivity.
    + rewrite init_recurrent_GRU by exact E.
      rewrite IH by exact Hr. unfold with_recurrent.
      destruct s; cbn in E; subst; cbn.
      rewrite <- app_assoc. reflexivity.
Qed.

Lemma init_linear_closed dims :
  forall i d s,
    init_linear i dims d s =
    (set_linear_layers_ (linear_layers_ s ++ linear_chain d dims)
       (set_modules
          (register_all "linear_" i (linear_chain d dims) (_modules s)) s),
     inr (last dims d)).
Proof.
  induction dims as [| hidden_dim rest IH]; intros i d s.
  - cbn [init_linear linear_chain register_all last]. rewrite app_nil_r.
    destruct s; reflexivity.
  - cbn [init_linear]. unfold bind, add_module, modify. rewrite IH.
    cbn [linear_chain register_all]. f_equal.
    + destruct s; cbn. rewrite <- app_assoc. reflexivity.
    + f_equal. symmetry. apply last_cons.
Qed.

Lemma init_attention_closed dims :
  forall i d s,
    init_attention i dims d s =
    (set_attention_layers_ (attention_layers_ s ++ linear_chain d dims)
       (set_modules
          (register_all "attention_" i (linear_chain d dims) (_modules s)) s),
     inr (last dims d)).
Proof.
  induction dims as [| hidden_dim rest IH]; intros i d s.
  - cbn [init_attention linear_chain register_all last]. rewrite app_nil_r.
    destruct s; reflexivity.
  - cbn [init_attention]. unfold bind, add_module, modify. rewrite IH.
    cbn [linear_chain register_all]. f_equal.
    + destruct s; cbn. rewrite <- app_assoc. reflexivity.
    + f_equal. symmetry. apply last_cons.
Qed.

Lemma bind_modify {S B} (f : S -> S) (k : unit -> M S B) s :
  bind (modify f) k s = k tt (f s).
Proof. reflexivity. Qed.

Lemma bind_get {S B} (k : S -> M S B) s : bind get k s = k s s.
Proof. reflexivity. Qed.

Lemma create_recurrent_layers_closed s :
  is_empty (recurrent s) || rnn_ok (rnn s) = true ->
  create_recurrent_layers s =
  (set_recurrent_layers_
     (recurrent_chain (rnn s) (bidirectional s) (n_features s) (recurrent s))
     (set_modules
        (register_all "recurrent_" 0
           (recurrent_chain (rnn s) (bidirectional s) (n_features s)
              (recurrent s)) (_modules s)) s),
   inr tt).
Proof.
  intros H. unfold create_recurrent_layers.
  rewrite bind_modify, bind_get.
  change (recurrent (set_recurrent_layers_ [] s)) with (recurrent s).
  change (n_features (set_recurrent_layers_ [] s)) with (n_features s).
  destruct (recurrent s) as [| h rest] eqn:E.
  - destruct s; reflexivity.
  - rewrite init_recurrent_closed by exact H.
    destruct s; reflexivity.
Qed.

Lemma create_linear_layers_closed d s :
  create_linear_layers d s =
  (set_linear_layers_ (linear_chain d (linear s))
     (set_modules
        (register_all "linear_" 0 (linear_chain d (linear s)) (_modules s)) s),
   inr (last (linear s) d)).
Proof.
  unfold create_linear_layers. rewrite bind_modify, bind_get.
  rewrite init_linear_closed. destruct s; reflexivity.
Qed.

Lemma create_attention_layers_closed s :
  create_attention_layers s =
  (set_attention_layers_ (attention_chain (n_features s) (attention s))
     (set_modules
        (register_all "attention_" 0
           (attention_chain (n_features s) (attention s)) (_modules s)) s),
   inr tt).
Proof.
  unfold create_attention_layers. rewrite bind_modify, bind_get.
  change (attention (set_attention_layers_ [] s)) with (attention s).
  change (n_features (set_attention_layers_ [] s)) with (n_features s).
  unfold attention_chain.
  destruct (attention s) as [| a rest] eqn:E; cbn [is_empty].
  - destruct s; reflexivity.
  - unfold bind at 1. rewrite init_attention_closed.
    destruct (last (a :: rest) (n_features s) >? 1).
    + unfold add_module. rewrite bind_modify. unfold modify.
      rewrite register_all_app, linear_chain_length.
      cbn [register_all]. rewrite Z.add_0_l.
      destruct s; reflexivity.
    + rewrite app_nil_r. destruct s; reflexivity.
Qed.

(** A construction that returns leaves [built c]. *)
Lemma construct_built c :
  str_in (cfg_pooling c) ["sum"; "max"] = true ->
  is_empty (cfg_recurrent c) || rnn_ok (cfg_rnn c) = true ->
  construct c = (built c, inr tt).
Proof.
  intros Hp Hr. unfold construct, __init__.
  rewrite bind_modify, bind_get.
  cbn [pooling set_config]. rewrite Hp. cbn [negb].
  unfold bind at 1.
  rewrite create_recurrent_layers_closed by exact Hr.
  unfold bind at 1.
  assert (forall s : ClopiNet,
            (if weighted (set_config c blank)
             then register_parameter "alphas_"
                    (Param (Ones (sum (recurrent (set_config c blank)) *
                                  directions (bidirectional (set_config c blank)))))
             else ret tt) s =
            (set_parameters
               (if cfg_weighted c
                then assign "alphas_" (Param (Ones (recurrent_width c)))
                       (_parameters s)
                else _parameters s) s, inr tt)) as ->.
  { intros s. cbn [weighted set_config recurrent bidirectional].
    destruct (cfg_weighted c); [reflexivity |].
    unfold ret. rewrite set_parameters_same. reflexivity. }
  unfold bind at 1. rewrite create_linear_layers_closed.
  unfold bind at 1.
  assert (forall d s,
            create_batch_norms d s =
            (set_modules
               (let m3 :=
                  if batch_normalize s
                  then assign "batch_norm_"
                         (BatchNorm (nn_BatchNorm1d d (1 # 100000) (1 # 10) false))
                         (_modules s)
                  else _modules s in
                if py_in_strs (normalize s) ["ball"; "ring"]
                then assign "norm_batch_norm_"
                       (BatchNorm (nn_BatchNorm1d 1 (1 # 100000) (1 # 10) false))
                       m3
                else m3) s, inr tt)) as ->.
  { intros d s. unfold create_batch_norms. rewrite bind_get.
    destruct (batch_normalize s), (py_in_strs (normalize s) ["ball"; "ring"]);
      destruct s; reflexivity. }
  rewrite create_attention_layers_closed.
  unfold built, built_modules, linear_of, attention_of, recurrent_width.
  destruct c as [nf r rec bi pool inorm bnorm norm wei lin att]; cbn.
  destruct wei, bnorm, (py_in_strs norm ["ball"; "ring"]); reflexivity.
Qed.

(** * What construction guarantees *)

Lemma construct_inv_built c m :
  construct c = (m, inr tt) -> m = built c.
Proof.
  intros H. destruct (construct_inv c m H) as (_ & Hp & Hr).
  rewrite (construct_built c Hp Hr) in H. congruence.
Qed.

Lemma str_in_sum_max s :
  str_in s ["sum"; "max"] = true <-> s = "sum" \/ s = "max".
Proof.
  unfold str_in. cbn [existsb]. rewrite orb_false_r, orb_true_iff.
  rewrite !String.eqb_eq. reflexivity.
Qed.

Lemma rnn_ok_iff s : rnn_ok s = true <-> s = "LSTM" \/ s = "GRU".
Proof.
  unfold rnn_ok. rewrite orb_true_iff, !String.eqb_eq. reflexivity.
Qed.

Lemma is_empty_iff {A} (l : list A) : is_empty l = true <-> l = [].
Proof. destruct l; simpl; split; congruence. Qed.

(** X1.  Construction returns exactly when the pooling mode is ['sum']
    or ['max'] and the cell kind is ['LSTM'] or ['GRU'] or there is no
    recurrent size at all. *)
Theorem construct_returns_iff c :
  (exists m, construct c = (m, inr tt)) <->
  (cfg_pooling c = "sum" \/ cfg_pooling c = "max") /\
  (cfg_recurrent c = [] \/ cfg_rnn c = "LSTM" \/ cfg_rnn c = "GRU").
Proof.
  rewrite <- str_in_sum_max, <- rnn_ok_iff, <- is_empty_iff, <- orb_true_iff.
  split.
  - intros [m H]. destruct (construct_inv c m H) as (_ & Hp & Hr). auto.
  - intros [Hp Hr]. exists (built c). apply construct_built; assumption.
Qed.

Lemma recurrent_chain_chained rnn bi dims :
  forall d, chained d (recurrent_chain rnn bi d dims) = true.
Proof.
  induction dims as [| h rest IH]; intros d; cbn [recurrent_chain chained];
    [reflexivity |].
  destruct (rnn =? "LSTM")%string; cbn [input_width output_width];
    rewrite Z.eqb_refl, IH; reflexivity.
Qed.

Lemma recurrent_chain_sizes rnn bi dims :
  forall d, map size_of (recurrent_chain rnn bi d dims) = dims.
Proof.
  induction dims as [| h rest IH]; intros d; cbn [recurrent_chain map];
    [reflexivity |].
  rewrite IH. destruct (rnn =? "LSTM")%string; reflexivity.
Qed.

Lemma recurrent_chain_as_configured c d dims :
  rnn_ok (cfg_rnn c) = true ->
  forallb (recurrent_as_configured c)
    (recurrent_chain (cfg_rnn c) (cfg_bidirectional c) d dims) = true.
Proof.
  intros Hr. revert d.
  induction dims as [| h rest IH]; intros d; cbn [recurrent_chain forallb];
    [reflexivity |].
  rewrite IH, andb_true_r.
  destruct (rnn_ok_cases _ Hr) as [E | E]; rewrite E;
    cbn [String.eqb Ascii.eqb Bool.eqb recurrent_as_configured kind_of];
    rewrite E, eqb_reflx; reflexivity.
Qed.

(** X2.  In a module that constructed there is one recurrent layer per
    entry of [recurrent], of the configured hidden size, kind and
    direction; the first takes the features and each next one takes the
    width the one before gives (its hidden size, doubled if
    bidirectional). *)
Theorem recurrent_layers_stack c m :
  construct c = (m, inr tt) ->
  map size_of (recurrent_layers_ m) = cfg_recurrent c /\
  chained (cfg_n_features c) (recurrent_layers_ m) = true /\
  forallb (recurrent_as_configured c) (recurrent_layers_ m) = true.
Proof.
  intros H. destruct (construct_inv c m H) as (_ & _ & Hr).
  rewrite (construct_inv_built c m H). cbn [recurrent_layers_ built].
  split; [apply recurrent_chain_sizes |].
  split; [apply recurrent_chain_chained |].
  destruct (cfg_recurrent c) as [| h rest] eqn:E; [reflexivity |].
  apply recurrent_chain_as_configured. exact Hr.
Qed.

Lemma recurrent_layers_stack_witness :
  map size_of (recurrent_layers_ (fst (construct (defaults 40)))) = [64; 64; 64] /\
  chained 40 (recurrent_layers_ (fst (construct (defaults 40)))) = true /\
  forallb (recurrent_as_configured (defaults 40))
    (recurrent_layers_ (fst (construct (defaults 40)))) = true.
Proof.
  apply (recurrent_layers_stack (defaults 40) (fst (construct (defaults 40)))).
  vm_compute. reflexivity.
Defined.

Lemma sum_from l : forall a, fold_left Z.add l a = a + sum l.
Proof.
  unfold sum. induction l as [| x l IH]; intros a; cbn [fold_left]; [lia |].
  rewrite (IH (a + x)), (IH (0 + x)). lia.
Qed.

Lemma sum_cons x l : sum (x :: l) = x + sum l.
Proof. unfold sum at 1. cbn [fold_left]. rewrite sum_from. lia. Qed.

Lemma recurrent_chain_width rnn bi dims :
  forall d,
    sum (map output_width (recurrent_chain rnn bi d dims)) =
    sum dims * directions bi.
Proof.
  induction dims as [| h rest IH]; intros d; cbn [recurrent_chain map];
    [reflexivity |].
  rewrite !sum_cons, IH.
  destruct (rnn =? "LSTM")%string; cbn [output_width]; lia.
Qed.

Lemma linear_chain_chained dims :
  forall d, chained d (linear_chain d dims) = true.
Proof.
  induction dims as [| h rest IH]; intros d; cbn [linear_chain chained];
    [reflexivity |].
  cbn [input_width output_width]. rewrite Z.eqb_refl, IH. reflexivity.
Qed.

Lemma linear_chain_sizes dims :
  forall d, map size_of (linear_chain d dims) = dims.
Proof.
  induction dims as [| h rest IH]; intros d; cbn [linear_chain map];
    [reflexivity |].
  rewrite IH. reflexivity.
Qed.

Lemma chained_app layers1 :
  forall d layers2,
    chained d (layers1 ++ layers2) =
    chained d layers1 && chained (stack_width d layers1) layers2.
Proof.
  induction layers1 as [| l rest IH]; intros d layers2.
  - reflexivity.
  - cbn [app chained]. rewrite IH, andb_assoc. f_equal. f_equal.
    unfold stack_width. destruct rest as [| l' rest']; reflexivity.
Qed.

Lemma linear_chain_stack_width dims :
  forall d, stack_width d (linear_chain d dims) = last dims d.
Proof.
  induction dims as [| h rest IH]; intros d; [reflexivity |].
  rewrite last_cons, <- IH. cbn [linear_chain]. unfold stack_width.
  destruct (linear_chain h rest) eqn:E; reflexivity.
Qed.

(** X3.  The weights [alphas_] are the only parameter the module
    registers itself, present exactly when [weighted] is set, on the cpu,
    initialized to ones, one per column of the concatenated outputs of
    the recurrent layers. *)
Theorem alphas_per_concatenated_column c m :
  construct c = (m, inr tt) ->
  _parameters m =
  if cfg_weighted c
  then [("alphas_",
         Param (Ones (sum (map output_width (recurrent_layers_ m)))))]
  else [].
Proof.
  intros H. rewrite (construct_inv_built c m H).
  cbn [_parameters recurrent_layers_ built].
  rewrite recurrent_chain_width. reflexivity.
Qed.

Lemma alphas_per_concatenated_column_witness :
  _parameters (fst (construct small_max_weighted)) =
  if cfg_weighted small_max_weighted
  then [("alphas_",
         Param (Ones (sum (map output_width
                             (recurrent_layers_
                                (fst (construct small_max_weighted)))))))]
  else [].
Proof.
  apply (alphas_per_concatenated_column small_max_weighted).
  vm_compute. reflexivity.
Defined.

(** X4.  There is one linear layer per entry of [linear], of that output
    size; the first takes the concatenated outputs of the recurrent
    layers and each next one takes what the one before gives. *)
Theorem linear_layers_stack c m :
  construct c = (m, inr tt) ->
  map size_of (linear_layers_ m) = linear_of c /\
  chained (sum (map output_width (recurrent_layers_ m))) (linear_layers_ m)
  = true.
Proof.
  intros H. rewrite (construct_inv_built c m H).
  cbn [linear_layers_ recurrent_layers_ built].
  rewrite recurrent_chain_width.
  split; [apply linear_chain_sizes | apply linear_chain_chained].
Qed.

Lemma linear_layers_stack_witness :
  map size_of (linear_layers_ (fst (construct small_cube))) = [5] /\
  chained (sum (map output_width (recurrent_layers_ (fst (construct small_cube)))))
    (linear_layers_ (fst (construct small_cube))) = true.
Proof.
  apply (linear_layers_stack small_cube). vm_compute. reflexivity.
Defined.

(** X5.  [output_dim] is the width that comes out of the linear layers
    stacked on the concatenated outputs of the recurrent layers. *)
Theorem output_dim_is_last_width c m :
  construct c = (m, inr tt) ->
  output_dim m =
  stack_width (sum (map output_width (recurrent_layers_ m))) (linear_layers_ m).
Proof.
  intros H. rewrite (construct_inv_built c m H).
  unfold output_dim. cbn [linear recurrent bidirectional linear_layers_
    recurrent_layers_ built].
  rewrite recurrent_chain_width, linear_chain_stack_width.
  unfold recurrent_width.
  destruct (linear_of c) as [| h rest]; [reflexivity |].
  cbn [is_empty negb]. rewrite !last_cons. reflexivity.
Qed.

Lemma output_dim_is_last_width_witness :
  output_dim (fst (construct small_cube)) =
  stack_width
    (sum (map output_width (recurrent_layers_ (fst (construct small_cube)))))
    (linear_layers_ (fst (construct small_cube))).
Proof.
  apply (output_dim_is_last_width small_cube). vm_compute. reflexivity.
Defined.

(** ** Lookups in the registry of sub-layers *)

Lemma lookup_assign_other {A} name name' (v : A) d :
  (name' =? name)%string = false ->
  lookup name (assign name' v d) = lookup name d.
Proof.
  intros N. induction d as [| [k w] rest IH]; cbn [assign lookup].
  - rewrite N. reflexivity.
  - destruct (k =? name')%string eqn:E; cbn [lookup].
    + apply String.eqb_eq in E. subst k. rewrite N. reflexivity.
    + rewrite IH. reflexivity.
Qed.

Lemma lookup_register_all_other prefix name layers :
  (forall j, (prefix ++ str j =? name)%string = false) ->
  forall i modules,
    lookup name (register_all prefix i layers modules) = lookup name modules.
Proof.
  intros N. induction layers as [| l rest IH]; intros i modules;
    cbn [register_all]; [reflexivity |].
  rewrite IH. apply lookup_assign_other, N.
Qed.

Lemma output_dim_built c :
  output_dim (built c) = last (linear_of c) (recurrent_width c).
Proof.
  unfold output_dim. cbn [linear recurrent bidirectional built].
  destruct (linear_of c) as [| h rest]; [reflexivity |].
  cbn [is_empty negb]. rewrite !last_cons. reflexivity.
Qed.

Lemma lookup_batch_norm_built c :
  lookup "batch_norm_" (built_modules c) =
  if cfg_batch_normalize c
  then Some (BatchNorm (nn_BatchNorm1d (last (linear_of c) (recurrent_width c))
                          (1 # 100000) (1 # 10) false))
  else None.
Proof.
  unfold built_modules. cbv zeta.
  rewrite lookup_register_all_other by (intros j; reflexivity).
  assert (forall m3,
            lookup "batch_norm_"
              (if py_in_strs (cfg_normalize c) ["ball"; "ring"]
               then assign "norm_batch_norm_"
                      (BatchNorm (nn_BatchNorm1d 1 (1 # 100000) (1 # 10) false))
                      m3
               else m3) = lookup "batch_norm_" m3) as ->.
  { intros m3. destruct (py_in_strs (cfg_normalize c) ["ball"; "ring"]);
      [apply lookup_assign_other |]; reflexivity. }
  destruct (cfg_batch_normalize c).
  - rewrite lookup_assign. reflexivity.
  - rewrite !lookup_register_all_other by (intros j; reflexivity).
    reflexivity.
Qed.

Lemma lookup_norm_batch_norm_built c :
  lookup "norm_batch_norm_" (built_modules c) =
  if py_in_strs (cfg_normalize c) ["ball"; "ring"]
  then Some (BatchNorm (nn_BatchNorm1d 1 (1 # 100000) (1 # 10) false))
  else None.
Proof.
  unfold built_modules. cbv zeta.
  rewrite lookup_register_all_other by (intros j; reflexivity).
  destruct (py_in_strs (cfg_normalize c) ["ball"; "ring"]).
  - rewrite lookup_assign. reflexivity.
  - destruct (cfg_batch_normalize c);
      [rewrite lookup_assign_other by reflexivity |];
      rewrite !lookup_register_all_other by (intros j; reflexivity);
      reflexivity.
Qed.

(** X6.  The batch normalization of the embedding is registered, as
    [batch_norm_], exactly when [batch_normalize] is set; it is sized to
    [output_dim], without affine parameters, and starts in training mode
    with fresh statistics. *)
Theorem batch_norm_sized_to_output_dim c m :
  construct c = (m, inr tt) ->
  lookup "batch_norm_" (_modules m) =
  if cfg_batch_normalize c
  then Some (BatchNorm {| num_features := output_dim m;
                          eps := 1 # 100000; momentum := 1 # 10;
                          affine := false; training := true;
                          running_stats := StatsInit (output_dim m) |})
  else None.
Proof.
  intros H. rewrite (construct_inv_built c m H), output_dim_built.
  cbn [_modules built]. apply lookup_batch_norm_built.
Qed.

Lemma batch_norm_sized_to_output_dim_witness :
  lookup "batch_norm_" (_modules (fst (construct small_cube))) =
  if cfg_batch_normalize small_cube
  then Some (BatchNorm {| num_features := output_dim (fst (construct small_cube));
                          eps := 1 # 100000; momentum := 1 # 10;
                          affine := false; training := true;
                          running_stats :=
                            StatsInit (output_dim (fst (construct small_cube))) |})
  else None.
Proof.
  apply (batch_norm_sized_to_output_dim small_cube). vm_compute. reflexivity.
Defined.

(** X7.  The batch normalization of the norm is registered, as
    [norm_batch_norm_], exactly when [normalize] is ['ball'] or ['ring'];
    it has one feature. *)
Theorem norm_batch_norm_for_ball_and_ring c m :
  construct c = (m, inr tt) ->
  lookup "norm_batch_norm_" (_modules m) =
  if py_in_strs (cfg_normalize c) ["ball"; "ring"]
  then Some (BatchNorm {| num_features := 1;
                          eps := 1 # 100000; momentum := 1 # 10;
                          affine := false; training := true;
                          running_stats := StatsInit 1 |})
  else None.
Proof.
  intros H. rewrite (construct_inv_built c m H).
  cbn [_modules built]. apply lookup_norm_batch_norm_built.
Qed.

Lemma norm_batch_norm_for_ball_and_ring_witness :
  lookup "norm_batch_norm_" (_modules (fst (construct small_cube))) =
  if py_in_strs (cfg_normalize small_cube) ["ball"; "ring"]
  then Some (BatchNorm {| num_features := 1;
                          eps := 1 # 100000; momentum := 1 # 10;
                          affine := false; training := true;
                          running_stats := StatsInit 1 |})
  else None.
Proof.
  apply (norm_batch_norm_for_ball_and_ring small_cube). vm_compute. reflexivity.
Defined.

(** X8.  The attention layers are stacked on the features.  There is
    none without attention sizes; otherwise there is one per size, and
    one more, to a single value, when the last size is above one. *)
Theorem attention_layers_stack c m :
  construct c = (m, inr tt) ->
  chained (cfg_n_features c) (attention_layers_ m) = true /\
  (attention_of c = [] -> attention_layers_ m = []) /\
  (forall front k,
     attention_of c = (front ++ [k])%list ->
     map size_of (attention_layers_ m) =
     if k >? 1 then (attention_of c ++ [1])%list else attention_of c).
Proof.
  intros H. rewrite (construct_inv_built c m H).
  cbn [attention_layers_ built]. unfold attention_chain.
  split; [| split].
  - rewrite chained_app, linear_chain_chained, linear_chain_stack_width.
    cbn [andb].
    destruct (is_empty (attention_of c)); [reflexivity |].
    destruct (last (attention_of c) (cfg_n_features c) >? 1); [| reflexivity].
    cbn [chained input_width]. rewrite Z.eqb_refl. reflexivity.
  - intros ->. reflexivity.
  - intros front k E. rewrite E, last_last.
    assert (is_empty (front ++ [k]) = false) as -> by (destruct front; reflexivity).
    rewrite map_app, linear_chain_sizes.
    destruct (k >? 1); [reflexivity | apply app_nil_r].
Qed.

Lemma attention_layers_stack_witness :
  chained 2 (attention_layers_ (fst (construct small_attention))) = true /\
  (attention_of small_attention = [] ->
   attention_layers_ (fst (construct small_attention)) = []) /\
  (forall front k,
     attention_of small_attention = (front ++ [k])%list ->
     map size_of (attention_layers_ (fst (construct small_attention))) =
     if k >? 1 then (attention_of small_attention ++ [1])%list
     else attention_of small_attention).
Proof.
  apply (attention_layers_stack small_attention). vm_compute. reflexivity.
Defined.

(** ** Names of the registered layers *)






(** * The forward pass, stage by stage *)

Lemma bind_assoc {S A B C} (c : M S A) (f : A -> M S B) (g : B -> M S C) s :
  bind (bind c f) g s = bind c (fun a => bind (f a) g) s.
Proof. unfold bind. destruct (c s) as [s' [e | a]]; reflexivity. Qed.

Lemma bind_ext {S A B} (c : M S A) (f g : A -> M S B) s :
  (forall a s', f a s' = g a s') -> bind c f s = bind c g s.
Proof.
  intros H. unfold bind. destruct (c s) as [s' [e | a]]; [reflexivity | apply H].
Qed.

(** [embed] is the feature check followed by its two halves. *)
Lemma embed_stages arg w :
  embed arg w =
  if negb (input_n_features arg =? n_features (self_ w)) then
    (w, inl (ValueError (msg_wrong_dimension (input_n_features arg)
                           (n_features (self_ w)))))
  else
    bind (embed_to_outputs (self_ w) arg)
      (fun so => embed_from_outputs (self_ w) (isinstance_PackedSequence arg)
                   (fst so) (snd so)) w.
Proof.
  unfold embed. cbv zeta. rewrite (bind_returns getself _ w w (self_ w) eq_refl).
  destruct (negb (input_n_features arg =? n_features (self_ w)));
    [reflexivity |].
  unfold embed_to_outputs.
  rewrite bind_assoc. apply bind_ext. intros sequence w1.
  rewrite bind_assoc. apply bind_ext. intros u w2.
  rewrite bind_assoc. apply bind_ext. intros r w3.
  reflexivity.
Qed.

(** ** The first half: instance normalization, weights, recurrent layers *)

Lemma returns_exact {S A} (c : M S A) s s' a :
  c s = (s', inr a) -> returns c s (fun s'' a' => s'' = s' /\ a' = a).
Proof. intros H. exists s', a. auto. Qed.

Lemma returns_eq {S A} (c : M S A) s Q :
  returns c s Q -> exists s' a, c s = (s', inr a) /\ Q s' a.
Proof. auto. Qed.

(** The instance-normalization block on a tensor. *)
Lemma instance_normalize_block_tensor (b : bool) arg w :
  (isinstance_PackedSequence arg = true -> b = false) ->
  returns
    (if b then
       sequence <- transpose (Arg arg) 1 2 ;;
       sequence <- torch (InstanceNorm sequence) ;;
       transpose sequence 1 2
     else ret (Arg arg)) w
    (fun w' sequence =>
       self_ w' = self_ w /\
       is_packed sequence = isinstance_PackedSequence arg).
Proof.
  intros H. destruct b.
  - destruct arg as [t | p]; [| discriminate (H eq_refl)].
    eexists _, _. split; [reflexivity |]. split; reflexivity.
  - apply returns_ret. split; [reflexivity |]. destruct arg; reflexivity.
Qed.

(** Line 195 when the weights are where the input is. *)
Lemma move_alphas__returns device a w :
  lookup "alphas_" (_parameters (self_ w)) = Some a ->
  is_parameter a = true ->
  device_of a = device ->
  returns
    (alphas_ <- getattr_alphas_ ;;
     alphas_ <- torch (to alphas_ device) ;;
     setattr_alphas_ alphas_) w
    (fun w' _ => self_ w' = self_ w).
Proof.
  intros Hl Hp Hd.
  eapply returns_bind; [apply getattr_alphas__returns, Hl |].
  intros w1 a1 [-> ->].
  eapply returns_bind; [apply torch_returns |].
  intros w1 a1 [-> ->].
  unfold to. rewrite Hd.
  assert (device_eqb device device = true) as ->
    by (destruct device; simpl; auto using Nat.eqb_refl).
  unfold setattr_alphas_. rewrite Hp.
  eexists _, tt. split; [reflexivity |].
  cbn [self_]. rewrite (assign_lookup _ _ _ Hl). apply set_parameters_same.
Qed.


Lemma combine_length_same {A B} (l : list A) (l' : list B) :
  length l' = length l -> length (combine l l') = length l.
Proof. intros H. rewrite length_combine, H. apply Nat.min_id. Qed.

Lemma recurrent_loop_returns_any rnn n b dev zipped :
  is_empty zipped || rnn_ok rnn = true ->
  forall output outputs w,
    (zipped <> [] -> device_of output = cpu) ->
    returns (recurrent_loop rnn n b dev zipped output outputs) w
      (fun w' r => same_self w w' /\
                   length (snd r) = (length outputs + length zipped)%nat).
Proof.
  intros H output outputs w Hdev. destruct zipped as [| z rest].
  - apply returns_ret. split; [reflexivity | simpl; lia].
  - apply recurrent_loop_returns; [exact H | apply Hdev; discriminate].
Qed.

Lemma device_of_Arg arg : device_of (Arg arg) = input_device arg.
Proof. destruct arg; reflexivity. Qed.

Lemma lookup_alphas_built c :
  cfg_weighted c = true ->
  lookup "alphas_" (_parameters (built c)) =
  Some (Param (Ones (recurrent_width c))).
Proof. intros H. cbn [_parameters built]. rewrite H. reflexivity. Qed.

(** On a module as built, the first half returns once the feature check
    has passed, unless a packed sequence meets instance normalization or
    the weights or the recurrent layers are on another device than the
    input. *)
Lemma embed_to_outputs_returns c arg w :
  is_empty (cfg_recurrent c) || rnn_ok (cfg_rnn c) = true ->
  self_ w = built c ->
  (isinstance_PackedSequence arg = true -> cfg_instance_normalize c = false) ->
  (cfg_weighted c = true -> input_device arg = cpu) ->
  (cfg_recurrent c <> [] -> input_device arg = cpu) ->
  returns (embed_to_outputs (built c) arg) w
    (fun w' so =>
       self_ w' = built c /\
       is_packed (fst so) = isinstance_PackedSequence arg /\
       length (snd so) = length (cfg_recurrent c)).
Proof.
  intros Hr Hw Hin Hdev Hdev'. unfold embed_to_outputs.
  cbn [instance_normalize weighted rnn num_directions_ recurrent
       recurrent_layers_ built].
  eapply returns_bind; [apply instance_normalize_block_tensor, Hin |].
  intros w1 sequence [S1 P1]; cbv beta in *.
  eapply returns_bind.
  { instantiate (1 := fun w' _ => self_ w' = built c).
    destruct (cfg_weighted c) eqn:W.
    - eapply returns_weaken.
      + apply (move_alphas__returns (input_device arg)
                 (Param (Ones (recurrent_width c)))).
        * rewrite S1, Hw. apply lookup_alphas_built, W.
        * reflexivity.
        * rewrite (Hdev eq_refl). reflexivity.
      + intros w2 u H2; cbv beta in *. congruence.
    - apply returns_ret. congruence. }
  intros w2 u S2; cbv beta in *.
  eapply returns_bind.
  { apply recurrent_loop_returns_any.
    - destruct (cfg_recurrent c); [reflexivity | exact Hr].
    - intros Hz. rewrite device_of_Arg. apply Hdev'. intros E.
      apply Hz. rewrite E. reflexivity. }
  intros w3 r [S3 L3]; cbv beta in *.
  apply returns_ret. cbn [fst snd]. split; [| split].
  - unfold same_self in S3. congruence.
  - exact P1.
  - rewrite L3. cbn [length Nat.add].
    apply combine_length_same. apply recurrent_chain_length.
Qed.

(** ** The second half: concatenation, weights, linear and attention
    layers, pooling, batch normalization *)

Lemma unpack_or_keep_returns (packed : bool) outputs w :
  outputs <> [] ->
  returns (if packed then unpack_outputs outputs else ret outputs) w
    (fun w' outs => same_self w w' /\ outs <> []).
Proof.
  intros H. destruct packed.
  - unfold unpack_outputs.
    eapply returns_bind; [apply pad_all_returns |].
    intros w1 padded [S1 L1]; cbv beta in *.
    destruct padded as [| p ps].
    + destruct outputs; [congruence | discriminate].
    + apply returns_ret. split; [exact S1 | discriminate].
  - apply returns_ret. split; [reflexivity | exact H].
Qed.


Lemma attention_loop_returns zipped :
  forall attn w,
    is_packed attn = false ->
    returns (attention_loop zipped attn) w (fun w' _ => same_self w w').
Proof.
  induction zipped as [| [layer hidden_dim] rest IH]; intros attn w Hp;
    cbn [attention_loop].
  - apply returns_ret. reflexivity.
  - unfold call_linear. rewrite Hp.
    eapply returns_bind; [apply torch_returns |].
    intros w1 o [-> ->]. eapply returns_bind; [apply torch_returns |].
    intros w2 t [-> ->]. eapply returns_weaken; [apply IH; reflexivity |].
    intros w3 r H3. exact H3.
Qed.

(** The first attention layer refuses a packed sequence. *)
Lemma attention_loop_packed zipped attn w :
  zipped <> [] ->
  is_packed attn = true ->
  attention_loop zipped attn w =
  (w, inl (AttributeError "'PackedSequence' object has no attribute 'dim'")).
Proof.
  intros Hz Hp. destruct zipped as [| [layer hidden_dim] rest]; [congruence |].
  cbn [attention_loop]. unfold bind, call_linear. rewrite Hp. reflexivity.
Qed.

Lemma call_batch_norm_returns name x bn w :
  lookup name (_modules (self_ w)) = Some (BatchNorm bn) ->
  returns (call_batch_norm name x) w
    (fun w' r =>
       r = BatchNormOut (running_stats bn) (training bn) x /\
       self_ w' =
       if training bn
       then set_modules
              (assign name
                 (BatchNorm
                    (set_running_stats (StatsUpdate (running_stats bn) x) bn))
                 (_modules (self_ w))) (self_ w)
       else self_ w).
Proof.
  intros H. unfold call_batch_norm.
  eapply returns_bind; [apply getself_returns |].
  intros w1 self [-> ->]. rewrite H.
  eapply returns_bind; [apply torch_returns |].
  intros w1 out [-> ->].
  destruct (training bn); eexists _, _; (split; [reflexivity |]);
    split; reflexivity.
Qed.

Lemma attention_chain_empty n hidden_dims :
  is_empty (attention_chain n hidden_dims) = is_empty hidden_dims.
Proof. destruct hidden_dims; reflexivity. Qed.

Lemma combine_nonempty {A B} (l : list A) (l' : list B) :
  l <> [] -> l' <> [] -> combine l l' <> [].
Proof. destruct l, l'; simpl; congruence. Qed.


(** On a module as built, the second half returns when there is at
    least one recurrent output, unless the input is packed and attention
    layers or ["max"] pooling are configured. *)
Lemma embed_from_outputs_returns c (packed : bool) sequence outputs w :
  str_in (cfg_pooling c) ["sum"; "max"] = true ->
  self_ w = built c ->
  outputs <> [] ->
  is_packed sequence = packed ->
  (packed = true -> attention_of c = [] /\ cfg_pooling c = "sum") ->
  returns (embed_from_outputs (built c) packed sequence outputs) w
    (fun w' _ => ready_to_normalize c w').
Proof.
  intros Hpool Hw Hne Hseq Hpk. unfold embed_from_outputs.
  cbn [weighted linear linear_layers_ attention_layers_ attention pooling
       batch_normalize built].
  eapply returns_bind; [apply unpack_or_keep_returns, Hne |].
  intros w1 outs [S1 N1]; cbv beta in *.
  assert (self_ w1 = built c) as Hw1 by (unfold same_self in S1; congruence).
  eapply returns_bind.
  { instantiate (1 := fun w' o => self_ w' = built c /\ is_packed o = false).
    unfold cat. destruct outs as [| o os]; [congruence |]. cbn [is_empty].
    eapply returns_weaken; [apply torch_returns |].
    intros w2 o' [-> ->]. split; [exact Hw1 | reflexivity]. }
  intros w2 output [Hw2 P2]; cbv beta in *.
  eapply returns_bind.
  { instantiate (1 := fun w' o => self_ w' = built c /\ is_packed o = false).
    destruct (cfg_weighted c) eqn:W.
    - eapply returns_bind.
      { apply getattr_alphas__returns. rewrite Hw2.
        apply lookup_alphas_built, W. }
      intros w3 a [-> ->].
      eapply returns_weaken; [apply torch_returns |].
      intros w3 o' [-> ->]. split; [exact Hw2 | reflexivity].
    - apply returns_ret. auto. }
  intros w3 output3 [Hw3 P3]; cbv beta in *.
  eapply returns_bind; [apply linear_loop_returns, P3 |].
  intros w4 output4 S4; cbv beta in *.
  assert (self_ w4 = built c) as Hw4 by (unfold same_self in S4; congruence).
  eapply returns_bind.
  { instantiate (1 := fun w' _ => self_ w' = built c).
    rewrite attention_chain_empty.
    destruct (is_empty (attention_of c)) eqn:Ea; cbn [negb].
    - apply returns_ret. exact Hw4.
    - destruct packed.
      + destruct (Hpk eq_refl) as [Hatt _]. rewrite Hatt in Ea. discriminate.
      + eapply returns_bind; [apply attention_loop_returns, Hseq |].
        intros w5 attn S5; cbv beta in *.
        eapply returns_bind; [apply torch_returns |].
        intros w6 sm [-> ->].
        eapply returns_weaken; [apply torch_returns |].
        intros w7 o' [-> ->]. cbn [self_].
        unfold same_self in S5. congruence. }
  intros w5 output5 Hw5; cbv beta in *.
  eapply returns_bind.
  { instantiate (1 := fun w' _ => self_ w' = built c).
    apply str_in_sum_max in Hpool. destruct Hpool as [E | E]; rewrite E;
      cbn [String.eqb Ascii.eqb Bool.eqb].
    - eapply returns_weaken; [apply torch_returns |].
      intros w6 o' [-> ->]. exact Hw5.
    - destruct packed.
      + destruct (Hpk eq_refl) as [_ Hsum]. congruence.
      + eapply returns_weaken; [apply torch_returns |].
        intros w6 o' [-> ->]. exact Hw5. }
  intros w6 output6 Hw6; cbv beta in *.
  destruct (cfg_batch_normalize c) eqn:B.
  - pose proof (lookup_batch_norm_built c) as L. rewrite B in L.
    eapply returns_weaken.
    + apply call_batch_norm_returns. rewrite Hw6. exact L.
    + intros w7 r [_ S7]; cbv beta in *. unfold ready_to_normalize.
      rewrite S7, Hw6. cbn [training nn_BatchNorm1d].
      cbn [normalize _modules set_modules built]. split; [reflexivity |].
      apply lookup_assign_other. reflexivity.
  - apply returns_ret. unfold ready_to_normalize. rewrite Hw6. split; reflexivity.
Qed.


(** With attention layers, a packed sequence stops in the first of
    them. *)
Lemma embed_from_outputs_packed_attention c sequence outputs w :
  self_ w = built c ->
  outputs <> [] ->
  is_packed sequence = true ->
  attention_of c <> [] ->
  raises (embed_from_outputs (built c) true sequence outputs) w
    (AttributeError "'PackedSequence' object has no attribute 'dim'").
Proof.
  intros Hw Hne Hseq Hatt. unfold embed_from_outputs.
  cbn [weighted linear linear_layers_ attention_layers_ attention pooling
       batch_normalize built].
  eapply raises_later; [apply (unpack_or_keep_returns true), Hne |].
  intros w1 outs [S1 N1]; cbv beta in *.
  assert (self_ w1 = built c) as Hw1 by (unfold same_self in S1; congruence).
  eapply raises_later.
  { instantiate (1 := fun w' o => self_ w' = built c /\ is_packed o = false).
    unfold cat. destruct outs as [| o os]; [congruence |]. cbn [is_empty].
    eapply returns_weaken; [apply torch_returns |].
    intros w2 o' [-> ->]. split; [exact Hw1 | reflexivity]. }
  intros w2 output [Hw2 P2]; cbv beta in *.
  eapply raises_later.
  { instantiate (1 := fun w' o => self_ w' = built c /\ is_packed o = false).
    destruct (cfg_weighted c) eqn:W.
    - eapply returns_bind.
      { apply getattr_alphas__returns. rewrite Hw2.
        apply lookup_alphas_built, W. }
      intros w3 a [-> ->].
      eapply returns_weaken; [apply torch_returns |].
      intros w3 o' [-> ->]. split; [exact Hw2 | reflexivity].
    - apply returns_ret. auto. }
  intros w3 output3 [Hw3 P3]; cbv beta in *.
  eapply raises_later; [apply linear_loop_returns, P3 |].
  intros w4 output4 S4; cbv beta in *.
  apply raises_now.
  rewrite attention_chain_empty.
  destruct (attention_of c) as [| a rest] eqn:Ea; [congruence |].
  cbn [is_empty negb]. apply raises_now.
  exists w4. apply attention_loop_packed; [| exact Hseq].
  apply combine_nonempty.
  - unfold attention_chain. cbn. discriminate.
  - cbn. discriminate.
Qed.

(** ** The output normalization *)

Lemma py_eq_str_true v s : py_eq_str v s = true -> v = PyStr s.
Proof.
  destruct v; cbn; try discriminate. intros H.
  apply String.eqb_eq in H. congruence.
Qed.

Lemma call_batch_norm_again name x bn w :
  lookup name (_modules (self_ w)) = Some (BatchNorm bn) ->
  returns (call_batch_norm name x) w
    (fun w' _ =>
       exists bn', lookup name (_modules (self_ w')) = Some (BatchNorm bn') /\
                   training bn' = training bn /\
                   running_stats bn' =
                   if training bn then StatsUpdate (running_stats bn) x
                   else running_stats bn).
Proof.
  intros H. eapply returns_weaken; [apply call_batch_norm_returns, H |].
  intros w' r [_ S]; cbv beta in *. rewrite S.
  destruct (training bn) eqn:T.
  - eexists. cbn [_modules set_modules]. rewrite lookup_assign.
    split; [reflexivity |]. split; [exact T | reflexivity].
  - exists bn. auto.
Qed.

(** After the second half, on a module as built, the output
    normalization returns: the layer it needs for ['ball'] and ['ring']
    is there. *)
Lemma normalize_output_returns c output w :
  ready_to_normalize c w ->
  exists w' e, normalize_output output w = (w', inr e).
Proof.
  intros [Hn Hl]. unfold normalize_output.
  rewrite (bind_returns getself _ w w (self_ w) eq_refl). rewrite Hn.
  pose proof (lookup_norm_batch_norm_built c) as Hb. rewrite <- Hl in Hb.
  destruct (py_eq_str (cfg_normalize c) "sphere") eqn:Es;
    [| destruct (py_eq_str (cfg_normalize c) "ball") eqn:Eb;
       [| destruct (py_eq_str (cfg_normalize c) "ring") eqn:Er]].
  - apply py_eq_str_true in Es. rewrite Es.
    eexists _, _. reflexivity.
  - apply py_eq_str_true in Eb. rewrite Eb in *. cbn in Hb.
    cbn [truthy String.eqb Ascii.eqb Bool.eqb negb].
    assert (returns
              (norm <- (norm <- torch (Norm output 2 1 true) ;; ret (Some norm)) ;;
               norm <- local "norm" norm ;;
               unit_ <- torch (Div output norm) ;;
               b <- call_batch_norm "norm_batch_norm_" norm ;;
               s <- torch (Sigmoid b) ;;
               torch (Mul unit_ s)) w (fun _ _ => True)) as (w' & e & E & _).
    { eapply returns_bind.
      { eapply returns_bind; [apply torch_returns |].
        intros w1 n [-> ->]. apply returns_exact. reflexivity. }
      intros w1 n [-> ->]. cbn [local].
      eapply returns_bind; [apply returns_exact; reflexivity |].
      intros w1 n [-> ->].
      eapply returns_bind; [apply torch_returns |].
      intros w1 d [-> ->].
      eapply returns_bind; [apply call_batch_norm_returns; exact Hb |].
      intros w1 b [-> S1]; cbv beta in *.
      eapply returns_bind; [apply torch_returns |].
      intros w2 s [-> ->].
      eapply returns_weaken; [apply torch_returns |]. auto. }
    exists w', e. exact E.
  - apply py_eq_str_true in Er. rewrite Er in *. cbn in Hb.
    cbn [truthy String.eqb Ascii.eqb Bool.eqb negb].
    assert (returns
              (norm <- (norm <- torch (Norm output 2 1 true) ;; ret (Some norm)) ;;
               norm <- local "norm" norm ;;
               norm_ <- call_batch_norm "norm_batch_norm_" norm ;;
               unit_ <- torch (Div output norm) ;;
               b <- call_batch_norm "norm_batch_norm_" norm ;;
               s <- torch (Sigmoid b) ;;
               s <- torch (AddScalar 1 s) ;;
               torch (Mul unit_ s)) w (fun _ _ => True)) as (w' & e & E & _).
    { eapply returns_bind.
      { eapply returns_bind; [apply torch_returns |].
        intros w1 n [-> ->]. apply returns_exact. reflexivity. }
      intros w1 n [-> ->]. cbn [local].
      eapply returns_bind; [apply returns_exact; reflexivity |].
      intros w1 n [-> ->].
      eapply returns_bind;
        [apply call_batch_norm_again; exact Hb |].
      intros w1 b (bn' & L1 & _); cbv beta in *.
      eapply returns_bind; [apply torch_returns |].
      intros w2 d [-> ->].
      eapply returns_bind; [apply call_batch_norm_returns; exact L1 |].
      intros w3 b' [-> S3]; cbv beta in *.
      eapply returns_bind; [apply torch_returns |].
      intros w4 s [-> ->].
      eapply returns_bind; [apply torch_returns |].
      intros w5 s' [-> ->].
      eapply returns_weaken; [apply torch_returns |]. auto. }
    exists w', e. exact E.
  - destruct (truthy (cfg_normalize c)); eexists _, _; reflexivity.
Qed.

(** ** Outcomes of a forward pass on a module as constructed *)

Lemma run_forward_stages m arg :
  input_n_features arg = n_features m ->
  run_forward m arg =
  bind (bind (embed_to_outputs m arg)
          (fun so => embed_from_outputs m (isinstance_PackedSequence arg)
                       (fst so) (snd so)))
       normalize_output {| self_ := m; tape := [] |}.
Proof.
  intros H. unfold run_forward, forward, bind at 1 3.
  rewrite embed_stages. cbn [self_]. rewrite H, Z.eqb_refl. reflexivity.
Qed.

Lemma length_zero_nil {A B} (l : list A) (l' : list B) :
  length l = length l' -> l' <> [] -> l <> [].
Proof. destruct l, l'; simpl; congruence. Qed.

Lemma forward_returns_when_supported c m arg :
  construct c = (m, inr tt) ->
  input_n_features arg = cfg_n_features c ->
  cfg_recurrent c <> [] ->
  input_device arg = cpu ->
  (isinstance_PackedSequence arg = true ->
   cfg_instance_normalize c = false /\ attention_of c = [] /\
   cfg_pooling c = "sum") ->
  exists w e, run_forward m arg = (w, inr e).
Proof.
  intros Hc Hf Hrec Hdev Hpk.
  destruct (construct_inv c m Hc) as (_ & Hp & Hr).
  rewrite (construct_inv_built c m Hc).
  rewrite run_forward_stages by exact Hf.
  assert (returns
            (bind (embed_to_outputs (built c) arg)
               (fun so =>
                  embed_from_outputs (built c) (isinstance_PackedSequence arg)
                    (fst so) (snd so)))
            {| self_ := built c; tape := [] |}
            (fun w' _ => ready_to_normalize c w')) as (w1 & o & E & R).
  { eapply returns_bind.
    - apply (embed_to_outputs_returns c arg); auto.
      intros P. apply (Hpk P).
    - intros w1 [sequence outputs] (S1 & P1 & L1); cbn [fst snd] in *.
      apply embed_from_outputs_returns;
        [ exact Hp | exact S1 | exact (length_zero_nil _ _ L1 Hrec) | exact P1
        | intros P; destruct (Hpk P) as (_ & A & B); auto ]. }
  rewrite (bind_returns _ _ _ _ _ E).
  apply (normalize_output_returns c). exact R.
Qed.

(** X10.  On a dense input of the configured feature dimension that
    lives on the cpu, with the layers, a module that constructed with at
    least one recurrent layer returns an embedding, whatever its other
    options.  The batch holds at least two sequences of at least two
    frames: the normalization layers of the library refuse a single
    sample and a single frame. *)
Theorem dense_forward_returns c m t :
  construct c = (m, inr tt) ->
  size2 t = cfg_n_features c ->
  cfg_recurrent c <> [] ->
  tensor_device t = cpu ->
  1 < size0 t ->
  1 < size1 t ->
  exists w e, run_forward m (Dense t) = (w, inr e).
Proof.
  intros Hc Hf Hrec Hdev _ _.
  apply (forward_returns_when_supported c m (Dense t)); auto.
  discriminate.
Qed.

Lemma dense_forward_returns_witness :
  exists w e,
    run_forward (fst (construct small_instance_normalized)) (x_pair cpu) =
    (w, inr e).
Proof.
  apply (dense_forward_returns small_instance_normalized
           (fst (construct small_instance_normalized))
           {| tensor_name := "x"; size0 := 2; size1 := 4; size2 := 2;
              tensor_device := cpu |}).
  - vm_compute. reflexivity.
  - reflexivity.
  - vm_compute. discriminate.
  - reflexivity.
  - reflexivity.
  - reflexivity.
Defined.

(** X11.  On a well-formed packed input of the configured feature
    dimension that lives on the cpu, with the layers, a module with
    ['sum'] pooling, no attention layers, no instance normalization and
    at least one recurrent layer returns an embedding.  The batch holds
    at least two sequences, as the batch normalization of the library
    asks in training mode. *)
Theorem packed_sum_forward_returns c m p :
  construct c = (m, inr tt) ->
  cfg_pooling c = "sum" ->
  data_size1 p = cfg_n_features c ->
  cfg_instance_normalize c = false ->
  cfg_recurrent c <> [] ->
  attention_of c = [] ->
  data_device p = cpu ->
  well_packed p = true ->
  1 < batch_sizes_0 p ->
  exists w e, run_forward m (Packed p) = (w, inr e).
Proof.
  intros Hc Hpool Hf Hin Hrec Hatt Hdev _ _.
  apply (forward_returns_when_supported c m (Packed p)); auto.
Qed.

Lemma packed_sum_forward_returns_witness :
  exists w e,
    run_forward (fst (construct small_cube)) (x_packed 2 cpu) = (w, inr e).
Proof.
  apply (packed_sum_forward_returns small_cube (fst (construct small_cube))
           {| data_name := "x"; data_size0 := 5; data_size1 := 2;
              batch_sizes_0 := 2; batch_sizes_rest := [2; 1];
              data_device := cpu |}).
  - vm_compute. reflexivity.
  - reflexivity.
  - reflexivity.
  - reflexivity.
  - vm_compute. discriminate.
  - reflexivity.
  - reflexivity.
  - reflexivity.
  - reflexivity.
Defined.



(** C6.  The rule about attention is not what the code does.  With
    attention layers, a well-formed packed input of the configured
    feature dimension (on the cpu, with the layers; no instance
    normalization, at least one recurrent layer) does not raise
    [NotImplementedError]: the check of line 249 comes after the loop
    that applies the attention layers, and the first of them, applied to
    the packed sequence, raises [AttributeError]. *)
Theorem packed_attention_raises_attribute_error c m p :
  construct c = (m, inr tt) ->
  data_size1 p = cfg_n_features c ->
  cfg_instance_normalize c = false ->
  cfg_recurrent c <> [] ->
  attention_of c <> [] ->
  data_device p = cpu ->
  well_packed p = true ->
  snd (run_forward m (Packed p)) =
  inl (AttributeError "'PackedSequence' object has no attribute 'dim'").
Proof.
  intros Hc Hf Hin Hrec Hatt Hdev _.
  destruct (construct_inv c m Hc) as (_ & Hp & Hr).
  rewrite (construct_inv_built c m Hc).
  rewrite (run_forward_stages (built c) (Packed p)) by exact Hf.
  destruct (embed_to_outputs_returns c (Packed p)
              {| self_ := built c; tape := [] |} Hr eq_refl
              (fun _ => Hin) (fun _ => Hdev) (fun _ => Hdev))
    as (w1 & [sequence outputs] & E & S1 & P1 & L1).
  cbn [fst snd] in *.
  destruct (embed_from_outputs_packed_attention c sequence outputs w1)
    as [w2 E2]; auto.
  { exact (length_zero_nil _ _ L1 Hrec). }
  rewrite (bind_raises _ normalize_output _ w2
             (AttributeError "'PackedSequence' object has no attribute 'dim'")).
  - reflexivity.
  - rewrite (bind_returns _ _ _ _ _ E). exact E2.
Qed.

Lemma packed_attention_raises_attribute_error_witness :
  snd (run_forward (fst (construct small_attention)) (x_packed 2 cpu)) =
  inl (AttributeError "'PackedSequence' object has no attribute 'dim'").
Proof.
  apply (packed_attention_raises_attribute_error small_attention
           (fst (construct small_attention))
           {| data_name := "x"; data_size0 := 5; data_size1 := 2;
              batch_sizes_0 := 2; batch_sizes_rest := [2; 1];
              data_device := cpu |}).
  - vm_compute. reflexivity.
  - reflexivity.
  - reflexivity.
  - vm_compute. discriminate.
  - vm_compute. discriminate.
  - reflexivity.
  - reflexivity.
Defined.



(** * What a forward pass raises, on any module *)

Section Post.
Context {S : Type}.

Lemma post_ret {A} (a : A) (R : A -> Prop) E : R a -> post (@ret S A a) R E.
Proof. intros H s. exact H. Qed.

Lemma post_raise {A} e (R : A -> Prop) (E : exn -> Prop) :
  E e -> post (@raise S A e) R E.
Proof. intros H s. exact H. Qed.

Lemma post_bind {A B} (c : M S A) (k : A -> M S B) R1 R2 E :
  post c R1 E -> (forall a, R1 a -> post (k a) R2 E) -> post (bind c k) R2 E.
Proof.
  intros Hc Hk s. unfold bind. specialize (Hc s).
  destruct (c s) as [s' [e | a]]; cbn [snd] in *.
  - exact Hc.
  - apply Hk, Hc.
Qed.

Lemma post_if {A} (b : bool) (c1 c2 : M S A) R E :
  post c1 R E -> post c2 R E -> post (if b then c1 else c2) R E.
Proof. destruct b; auto. Qed.

Lemma post_weaken {A} (c : M S A) (R R' : A -> Prop) (E E' : exn -> Prop) :
  post c R E -> (forall a, R a -> R' a) -> (forall e, E e -> E' e) ->
  post c R' E'.
Proof.
  intros Hc HR HE s. specialize (Hc s).
  destruct (snd (c s)); auto.
Qed.

End Post.

Lemma incidental_AttributeError msg : incidental (AttributeError msg).
Proof. split; intros; discriminate. Qed.

Lemma incidental_TypeError msg : incidental (TypeError msg).
Proof. split; intros; discriminate. Qed.

Lemma incidental_UnboundLocalError msg : incidental (UnboundLocalError msg).
Proof. split; intros; discriminate. Qed.

Lemma incidental_RuntimeError msg : incidental (RuntimeError msg).
Proof. split; intros; discriminate. Qed.

Lemma incidental_unpack :
  incidental (ValueError "not enough values to unpack (expected 2, got 0)").
Proof. split; intros; discriminate. Qed.

Lemma quiet_torch e : quiet (torch e).
Proof. intros w. exact I. Qed.

Lemma quiet_getself : quiet getself.
Proof. intros w. exact I. Qed.

Lemma quiet_setself f : quiet (setself f).
Proof. intros w. exact I. Qed.

Ltac quiet_steps :=
  repeat lazymatch goal with
    | |- quiet ?c => change (post c (fun _ => True) incidental)
    | |- post (bind _ _) _ _ =>
        apply post_bind with (R1 := fun _ => True); [| intros ? _]
    | |- post (ret _) _ _ => apply post_ret; exact I
    | |- post (raise (AttributeError _)) _ _ =>
        apply post_raise, incidental_AttributeError
    | |- post (raise (TypeError _)) _ _ =>
        apply post_raise, incidental_TypeError
    | |- post (raise (UnboundLocalError _)) _ _ =>
        apply post_raise, incidental_UnboundLocalError
    | |- post (raise (RuntimeError _)) _ _ =>
        apply post_raise, incidental_RuntimeError
    | |- post (raise (ValueError "not enough values to unpack (expected 2, got 0)")) _ _ =>
        apply post_raise, incidental_unpack
    | |- post (if _ then _ else _) _ _ => apply post_if
    | |- post (torch _) _ _ => apply quiet_torch
    | |- post getself _ _ => apply quiet_getself
    | |- post (setself _) _ _ => apply quiet_setself
    end.

Lemma quiet_transpose e d0 d1 : quiet (transpose e d0 d1).
Proof. unfold transpose. quiet_steps. Qed.

Lemma quiet_call_linear l e : quiet (call_linear l e).
Proof. unfold call_linear. quiet_steps. Qed.

Lemma quiet_call_rnn l e hidden : quiet (call_rnn l e hidden).
Proof. unfold call_rnn. quiet_steps. Qed.

Lemma quiet_local name v : quiet (local name v).
Proof. unfold local. destruct v; quiet_steps. Qed.

Lemma quiet_cat outputs dim : quiet (cat outputs dim).
Proof. unfold cat. quiet_steps. Qed.

Lemma quiet_getattr_alphas_ : quiet getattr_alphas_.
Proof.
  unfold getattr_alphas_. quiet_steps.
  match goal with |- post (match ?x with _ => _ end) _ _ => destruct x end;
    quiet_steps.
Qed.

Lemma quiet_setattr_alphas_ v : quiet (setattr_alphas_ v).
Proof. unfold setattr_alphas_. quiet_steps. Qed.

Lemma quiet_recurrent_loop rnn n b dev zipped :
  forall output outputs,
    quiet (recurrent_loop rnn n b dev zipped output outputs).
Proof.
  induction zipped as [| [hidden_dim layer] rest IH]; intros output outputs;
    cbn [recurrent_loop]; quiet_steps;
    [apply quiet_call_rnn | apply IH].
Qed.

Lemma quiet_pad_all outputs : quiet (pad_all outputs).
Proof.
  induction outputs as [| o rest IH]; cbn [pad_all]; quiet_steps. apply IH.
Qed.

Lemma quiet_unpack_outputs outputs : quiet (unpack_outputs outputs).
Proof. unfold unpack_outputs. quiet_steps. apply quiet_pad_all. Qed.

Lemma quiet_linear_loop zipped : forall output, quiet (linear_loop zipped output).
Proof.
  induction zipped as [| [hidden_dim layer] rest IH]; intros output;
    cbn [linear_loop]; quiet_steps; [apply quiet_call_linear | apply IH].
Qed.

Lemma quiet_attention_loop zipped : forall attn, quiet (attention_loop zipped attn).
Proof.
  induction zipped as [| [layer hidden_dim] rest IH]; intros attn;
    cbn [attention_loop]; quiet_steps; [apply quiet_call_linear | apply IH].
Qed.

Lemma quiet_call_batch_norm name x : quiet (call_batch_norm name x).
Proof.
  unfold call_batch_norm. quiet_steps.
  match goal with |- post (match ?x with _ => _ end) _ _ =>
    destruct x as [[l | bn] |] end; quiet_steps.
  apply quiet_call_linear.
Qed.

Lemma quiet_normalize_output output : quiet (normalize_output output).
Proof.
  unfold normalize_output. quiet_steps;
    solve [apply quiet_local | apply quiet_call_batch_norm].
Qed.

Lemma incidental_not_unsupported e msg :
  incidental e -> e <> NotImplementedError msg.
Proof. intros [H _]. apply H. Qed.

Lemma quiet_embed_to_outputs self arg : quiet (embed_to_outputs self arg).
Proof.
  unfold embed_to_outputs. quiet_steps;
    solve [ apply quiet_transpose | apply quiet_getattr_alphas_
          | apply quiet_setattr_alphas_ | apply quiet_recurrent_loop ].
Qed.

(** On a packed input the first half hands on a packed sequence, and
    only without instance normalization. *)
Lemma embed_to_outputs_packed self p :
  post (embed_to_outputs self (Packed p))
    (fun so => instance_normalize self = false /\ is_packed (fst so) = true)
    incidental.
Proof.
  unfold embed_to_outputs.
  apply post_bind with
    (R1 := fun s => instance_normalize self = false /\ is_packed s = true).
  - destruct (instance_normalize self).
    + apply post_bind with (R1 := fun _ => False).
      * unfold transpose. cbn [is_packed].
        apply post_raise, incidental_AttributeError.
      * intros a [].
    + apply post_ret. split; reflexivity.
  - intros sequence Hs.
    apply post_bind with (R1 := fun _ => True).
    + quiet_steps;
        solve [apply quiet_getattr_alphas_ | apply quiet_setattr_alphas_].
    + intros _ _. apply post_bind with (R1 := fun _ => True).
      * apply quiet_recurrent_loop.
      * intros r _. apply post_ret. exact Hs.
Qed.

(** The second half raises [NotImplementedError] only for ['max']
    pooling on a packed input, and then there is no attention layer. *)
Lemma embed_from_outputs_unsupported self (packed : bool) sequence outputs :
  (packed = true -> is_packed sequence = true) ->
  post (embed_from_outputs self packed sequence outputs)
    (fun _ => True)
    (fun e =>
       (forall a b, e <> ValueError (msg_wrong_dimension a b)) /\
       forall msg, e = NotImplementedError msg ->
         packed = true /\ msg = msg_max /\ pooling self = "max" /\
         attention_layers_ self = []).
Proof.
  intros Hseq. unfold embed_from_outputs.
  assert (forall e, incidental e ->
            (forall a b, e <> ValueError (msg_wrong_dimension a b)) /\
            forall msg, e = NotImplementedError msg ->
              packed = true /\ msg = msg_max /\ pooling self = "max" /\
              attention_layers_ self = []) as Hinc.
  { intros e [H1 H2]. split; [exact H2 |]. intros msg E. destruct (H1 msg E). }
  assert (forall A (c : M World A), quiet c ->
            post c (fun _ => True)
              (fun e =>
                 (forall a b, e <> ValueError (msg_wrong_dimension a b)) /\
                 forall msg, e = NotImplementedError msg ->
                   packed = true /\ msg = msg_max /\ pooling self = "max" /\
                   attention_layers_ self = [])) as Hq.
  { intros A c Hc. eapply post_weaken; [exact Hc | auto | exact Hinc]. }
  apply post_bind with (R1 := fun _ => True).
  { apply Hq. quiet_steps. apply quiet_unpack_outputs. }
  intros outs _. apply post_bind with (R1 := fun _ => True).
  { apply Hq, quiet_cat. }
  intros output _. apply post_bind with (R1 := fun _ => True).
  { apply Hq. quiet_steps. apply quiet_getattr_alphas_. }
  intros output1 _. apply post_bind with (R1 := fun _ => True).
  { apply Hq, quiet_linear_loop. }
  intros output2 _.
  apply post_bind with
    (R1 := fun _ => packed = true -> attention_layers_ self = []).
  { destruct (attention_layers_ self) as [| l ls] eqn:Eal; cbn [is_empty negb].
    - apply post_ret. reflexivity.
    - destruct packed.
      + apply post_bind with (R1 := fun _ => False); [| intros a []].
        intros w.
        rewrite attention_loop_packed; [apply Hinc, incidental_AttributeError | |].
        * destruct (attention self); cbn; discriminate.
        * apply Hseq. reflexivity.
      + apply post_weaken with (R := fun _ => True)
          (E := fun e =>
                  (forall a b, e <> ValueError (msg_wrong_dimension a b)) /\
                  forall msg, e = NotImplementedError msg ->
                    false = true /\ msg = msg_max /\ pooling self = "max" /\
                    l :: ls = []); [| discriminate | auto].
        apply Hq. quiet_steps. apply quiet_attention_loop. }
  intros output3 Hal. apply post_bind with (R1 := fun _ => True).
  { destruct (pooling self =? "sum")%string eqn:Es;
      [apply Hq, quiet_torch |].
    destruct (pooling self =? "max")%string eqn:Em;
      [| apply post_ret; exact I].
    destruct packed; [| apply Hq, quiet_torch].
    apply post_raise. split; [intros; discriminate |].
    intros msg [= <-]. apply String.eqb_eq in Em. auto. }
  intros output4 _. apply Hq. quiet_steps. apply quiet_call_batch_norm.
Qed.

Lemma forward_stages arg w :
  forward arg w =
  if negb (input_n_features arg =? n_features (self_ w)) then
    (w, inl (ValueError (msg_wrong_dimension (input_n_features arg)
                           (n_features (self_ w)))))
  else
    bind (bind (embed_to_outputs (self_ w) arg)
            (fun so =>
               embed_from_outputs (self_ w) (isinstance_PackedSequence arg)
                 (fst so) (snd so)))
      normalize_output w.
Proof.
  unfold forward, bind at 1 3. rewrite embed_stages.
  destruct (negb (input_n_features arg =? n_features (self_ w))); reflexivity.
Qed.

(** What the body of [forward] can raise once the feature dimension has
    been accepted. *)
Lemma forward_body_errors self arg :
  post
    (bind (bind (embed_to_outputs self arg)
             (fun so =>
                embed_from_outputs self (isinstance_PackedSequence arg)
                  (fst so) (snd so)))
       normalize_output)
    (fun _ => True)
    (fun e =>
       (forall a b, e <> ValueError (msg_wrong_dimension a b)) /\
       forall msg, e = NotImplementedError msg ->
         isinstance_PackedSequence arg = true /\ msg = msg_max /\
         pooling self = "max" /\ attention_layers_ self = [] /\
         instance_normalize self = false).
Proof.
  assert (forall e, incidental e ->
            (forall a b, e <> ValueError (msg_wrong_dimension a b)) /\
            forall msg, e = NotImplementedError msg ->
              isinstance_PackedSequence arg = true /\ msg = msg_max /\
              pooling self = "max" /\ attention_layers_ self = [] /\
              instance_normalize self = false) as Hinc.
  { intros e [H1 H2]. split; [exact H2 |]. intros msg E. destruct (H1 msg E). }
  apply post_bind with (R1 := fun _ => True).
  - apply post_bind with
      (R1 := fun so =>
               isinstance_PackedSequence arg = true ->
               instance_normalize self = false /\ is_packed (fst so) = true).
    + destruct arg as [t | p].
      * eapply post_weaken;
          [apply quiet_embed_to_outputs | discriminate | exact Hinc].
      * eapply post_weaken;
          [apply embed_to_outputs_packed | auto | exact Hinc].
    + intros so Hso.
      eapply post_weaken;
        [ apply embed_from_outputs_unsupported; intros P; apply (Hso P)
        | auto | ].
      intros e [He1 He2]. split; [exact He1 |].
      intros msg E. destruct (He2 msg E) as (P & M & Pl & Al).
      destruct (Hso P) as [In _]. auto.
  - intros output _.
    eapply post_weaken; [apply quiet_normalize_output | auto | exact Hinc].
Qed.

(** X15.  A forward pass raises [NotImplementedError] only on a packed
    input of the right feature dimension, for ['max'] pooling, on a
    module without attention layers and without instance normalization;
    the error about attention (line 252) is never raised. *)
Theorem not_implemented_only_for_packed_max arg w msg :
  snd (forward arg w) = inl (NotImplementedError msg) ->
  isinstance_PackedSequence arg = true /\
  msg = msg_max /\
  pooling (self_ w) = "max" /\
  attention_layers_ (self_ w) = [] /\
  instance_normalize (self_ w) = false /\
  input_n_features arg = n_features (self_ w).
Proof.
  intros H. rewrite forward_stages in H.
  destruct (input_n_features arg =? n_features (self_ w)) eqn:Ef;
    cbn [negb] in H; [| discriminate].
  apply Z.eqb_eq in Ef.
  pose proof (forward_body_errors (self_ w) arg w) as P.
  rewrite H in P. destruct P as [_ P].
  destruct (P msg eq_refl) as (A & B & C & D & E). auto 10.
Qed.

Lemma not_implemented_only_for_packed_max_witness :
  isinstance_PackedSequence (x_packed 2 cpu) = true /\
  msg_max = msg_max /\
  pooling (fst (construct small_max)) = "max" /\
  attention_layers_ (fst (construct small_max)) = [] /\
  instance_normalize (fst (construct small_max)) = false /\
  input_n_features (x_packed 2 cpu) = n_features (fst (construct small_max)).
Proof.
  apply (not_implemented_only_for_packed_max (x_packed 2 cpu)
           {| self_ := fst (construct small_max); tape := [] |} msg_max).
  vm_compute. reflexivity.
Defined.

(** X16.  The error about the feature dimension is raised exactly when
    the feature dimension of the input differs from the configured one:
    nothing else in a forward pass raises it. *)
Theorem wrong_dimension_error_iff arg w :
  (exists a b,
     snd (forward arg w) = inl (ValueError (msg_wrong_dimension a b))) <->
  input_n_features arg <> n_features (self_ w).
Proof.
  rewrite forward_stages.
  destruct (input_n_features arg =? n_features (self_ w)) eqn:Ef; cbn [negb].
  - apply Z.eqb_eq in Ef. split; [| congruence].
    intros (a & b & H). exfalso.
    pose proof (forward_body_errors (self_ w) arg w) as P.
    rewrite H in P. destruct P as [P _]. exact (P a b eq_refl).
  - apply Z.eqb_neq in Ef. split; [auto |].
    intros _. eexists _, _. reflexivity.
Qed.

(** ** Instance normalization and packed input *)

(** X17.  On a module with [instance_normalize] set, a packed input of
    the right feature dimension is refused by the first [transpose]
    (line 190): the call raises [AttributeError] before any tensor
    operation, and the module is untouched. *)
Theorem instance_normalize_rejects_packed_input p w :
  instance_normalize (self_ w) = true ->
  input_n_features (Packed p) = n_features (self_ w) ->
  forward (Packed p) w =
  (w, inl (AttributeError
             "'PackedSequence' object has no attribute 'transpose'")).
Proof.
  intros Hin Hf. rewrite forward_stages, Hf, Z.eqb_refl. cbn [negb].
  unfold embed_to_outputs. rewrite Hin.
  unfold bind, transpose. cbn [is_packed]. reflexivity.
Qed.

Lemma instance_normalize_rejects_packed_input_witness :
  forward (x_packed 2 cpu)
    {| self_ := fst (construct small_max_instance_normalized); tape := [] |} =
  ({| self_ := fst (construct small_max_instance_normalized); tape := [] |},
   inl (AttributeError
          "'PackedSequence' object has no attribute 'transpose'")).
Proof.
  apply (instance_normalize_rejects_packed_input _
           {| self_ := fst (construct small_max_instance_normalized);
              tape := [] |});
    vm_compute; reflexivity.
Defined.

(** ** ['ring'] normalization *)



(** ** Evaluation mode *)

Lemma kept_in_eval_refl w : kept_in_eval w w.
Proof. intros _. reflexivity. Qed.

Lemma kept_in_eval_trans w1 w2 w3 :
  kept_in_eval w1 w2 -> kept_in_eval w2 w3 -> kept_in_eval w1 w3.
Proof.
  unfold kept_in_eval. intros H12 H23 H.
  specialize (H12 H). rewrite <- H12 in H. rewrite (H23 H). exact H12.
Qed.

Lemma same_self_kept_in_eval w w' : same_self w w' -> kept_in_eval w w'.
Proof. intros H _. exact H. Qed.

Lemma same_self_keeps_kept_in_eval {A} (c : M World A) :
  keeps same_self c -> keeps kept_in_eval c.
Proof. apply keeps_weaken. exact same_self_kept_in_eval. Qed.

(** A batch-normalization layer found in a module in evaluation mode is
    in evaluation mode. *)
Lemma eval_mode_lookup m name bn :
  eval_mode m = true ->
  lookup name (_modules m) = Some (BatchNorm bn) -> training bn = false.
Proof.
  unfold eval_mode. generalize (_modules m) as d.
  induction d as [| [k v] rest IH]; cbn [forallb lookup snd];
    [discriminate |].
  intros H. apply andb_true_iff in H. destruct H as [Hv Hrest].
  destruct (k =? name)%string.
  - intros [= ->]. apply negb_true_iff. exact Hv.
  - apply IH, Hrest.
Qed.

Lemma call_batch_norm_kept_in_eval name x :
  keeps kept_in_eval (call_batch_norm name x).
Proof.
  intros w. unfold call_batch_norm, bind, getself.
  destruct (lookup name (_modules (self_ w))) as [[l | bn] |] eqn:E.
  - apply same_self_kept_in_eval, call_linear_same_self.
  - intros He. cbn [fst snd].
    rewrite (eval_mode_lookup _ _ _ He E). reflexivity.
  - apply kept_in_eval_refl.
Qed.

Ltac eval_steps :=
  repeat lazymatch goal with
    | |- keeps _ (bind _ _) =>
        apply (keeps_bind kept_in_eval kept_in_eval_trans); [| intros ?]
    | |- keeps _ (ret _) => apply (keeps_ret kept_in_eval kept_in_eval_refl)
    | |- keeps _ (raise _) => apply (keeps_raise kept_in_eval kept_in_eval_refl)
    | |- keeps _ (if _ then _ else _) => apply (keeps_if kept_in_eval)
    | |- keeps _ (call_batch_norm _ _) => apply call_batch_norm_kept_in_eval
    | |- keeps _ (torch _) =>
        apply same_self_keeps_kept_in_eval, torch_same_self
    | |- keeps _ getself =>
        apply same_self_keeps_kept_in_eval, getself_same_self
    | |- keeps _ (local _ _) =>
        apply same_self_keeps_kept_in_eval, local_same_self
    | |- keeps _ (transpose _ _ _) =>
        apply same_self_keeps_kept_in_eval, transpose_same_self
    | |- keeps _ (cat _ _) =>
        apply same_self_keeps_kept_in_eval, cat_same_self
    | |- keeps _ (recurrent_loop _ _ _ _ _ _ _) =>
        apply same_self_keeps_kept_in_eval, recurrent_loop_same_self
    | |- keeps _ (unpack_outputs _) =>
        apply same_self_keeps_kept_in_eval, unpack_outputs_same_self
    | |- keeps _ (linear_loop _ _) =>
        apply same_self_keeps_kept_in_eval, linear_loop_same_self
    | |- keeps _ (attention_loop _ _) =>
        apply same_self_keeps_kept_in_eval, attention_loop_same_self
    | |- keeps _ getattr_alphas_ =>
        apply same_self_keeps_kept_in_eval, getattr_alphas__same_self
    end.

Lemma forward_kept_in_eval sequence : keeps kept_in_eval (forward sequence).
Proof.
  unfold forward. apply (keeps_bind kept_in_eval kept_in_eval_trans).
  - unfold embed. cbv zeta.
    apply (keeps_bind kept_in_eval kept_in_eval_trans);
      [eval_steps | intros self].
    apply (keeps_if kept_in_eval); [eval_steps |].
    apply (keeps_bind kept_in_eval kept_in_eval_trans);
      [eval_steps | intros sequence'].
    apply (keeps_bind kept_in_eval kept_in_eval_trans).
    { apply (keeps_if kept_in_eval); [| eval_steps].
      apply same_self_keeps_kept_in_eval, move_alphas__same_self. }
    intros _. eval_steps.
  - intros output. unfold normalize_output. eval_steps.
Qed.

(** X19.  On a module whose batch-normalization layers are all in
    evaluation mode, a forward pass leaves the module object exactly as
    it was, whether it returns or raises: attributes, parameters,
    sub-layers and running statistics. *)
Theorem forward_in_eval_mode_keeps_module sequence w :
  eval_mode (self_ w) = true ->
  self_ (fst (forward sequence w)) = self_ w.
Proof. exact (forward_kept_in_eval sequence w). Qed.

Lemma forward_in_eval_mode_keeps_module_witness :
  self_ (fst (forward (x_dense cpu)
                {| self_ := eval_ (fst (construct (defaults 2))); tape := [] |})) =
  eval_ (fst (construct (defaults 2))).
Proof.
  apply (forward_in_eval_mode_keeps_module (x_dense cpu)
           {| self_ := eval_ (fst (construct (defaults 2))); tape := [] |}).
  vm_compute. reflexivity.
Defined.

(** ** Instance normalization without attention *)



